(** * power-stock-data: the dashboard script [calibrate-power-stock/app.py]

    The script loads a CSV of power plants into a pandas DataFrame, narrows it
    with sidebar widgets, shows a sample of the remaining rows and draws two
    aggregate charts.  This development embeds the script and the pandas
    operations it calls, and proves properties of the filter section, of the
    two aggregates, of the displayed sample and of the missing-file guard.

    Modelling conventions.
    - A cell of a DataFrame is a text ([Str]), a number ([Num]) or the missing
      marker ([NaN]).  pandas stores the numbers of a column as float64, or as
      int64 when all are whole and none is missing; the model does not tell
      the two apart and uses exact rationals.  Sums, quotients and running
      totals are the exact ones; they are the script's figures when none of
      its operations rounds or wraps, and the statements about totals ask
      this of the capacities ([exact_capacities]).  The float infinities are
      not values of the model: a frame that holds one is outside it.
    - A DataFrame is its column labels and its rows, in order.  A row shorter
      than the header reads as [NaN] beyond its end, as [read_csv] pads it.
    - A Python exception is a value [Raise e] of the [result] type.
    - The sidebar widgets, the file system and the pseudo-random generator are
      the environment: they are arguments of the definitions that use them.
      A widget returns what the user has chosen; the slider raises when its
      two bounds are equal.
    - [st.cache_data] is not modelled: [load_data] is the decorated function,
      as it runs in a fresh process. *)

From Stdlib Require Import String List Bool Arith ZArith QArith Qround Qabs Lia.
From Stdlib Require Import Permutation Sorted.
Import ListNotations.

(** ** Values *)

Inductive cell : Type :=
| Str (s : string)
| Num (q : Q)
| NaN.

Definition Series := list cell.

Record DataFrame : Type := mkDataFrame {
  columns : list string;
  rows : list (list cell)
}.

(** ** Exceptions *)

Inductive exn : Type :=
| KeyError (key : string)
| TypeError
| FileNotFoundError (path : string)
| StreamlitAPIException
| StopException.

Inductive result (A : Type) : Type :=
| Ok (a : A)
| Raise (e : exn).

Arguments Ok {A} a.
Arguments Raise {A} e.

Definition rbind {A B : Type} (m : result A) (k : A -> result B) : result B :=
  match m with
  | Ok a => k a
  | Raise e => Raise e
  end.

Declare Scope result_scope.
Delimit Scope result_scope with result.
Notation "x <- m ;; k" := (rbind m (fun x => k))
  (at level 61, m at next level, right associativity) : result_scope.

Fixpoint mapM {A B : Type} (f : A -> result B) (l : list A) : result (list B) :=
  match l with
  | [] => Ok []
  | x :: xs =>
      (y <- f x ;;
       ys <- mapM f xs ;;
       Ok (y :: ys))%result
  end.

(** ** pandas: cells, Series and boolean masks *)

Definition notna (c : cell) : bool :=
  match c with
  | NaN => false
  | _ => true
  end.

Definition is_str (c : cell) : bool :=
  match c with
  | Str _ => true
  | _ => false
  end.

Definition is_num (c : cell) : bool :=
  match c with
  | Num _ => true
  | _ => false
  end.

(** Equality of two cells as [==] and [isin] see it: texts by characters,
    numbers by value; [isin] also matches a missing cell with a missing
    value. *)
Definition cell_eqb (a b : cell) : bool :=
  match a, b with
  | Str x, Str y => String.eqb x y
  | Num x, Num y => Qeq_bool x y
  | NaN, NaN => true
  | _, _ => false
  end.

(** The order Python's [sorted] and pandas' sorts use within one kind of cell:
    code-point order on texts, numeric order on numbers.  Across kinds the
    order is only there to make the function total; [sorted] below raises
    before it is consulted. *)
Definition cell_leb (a b : cell) : bool :=
  match a, b with
  | Num x, Num y => Qle_bool x y
  | Num _, _ => true
  | Str _, Num _ => false
  | Str x, Str y => String.leb x y
  | Str _, NaN => true
  | NaN, NaN => true
  | NaN, _ => false
  end.

Fixpoint get_loc (key : string) (cols : list string) : option nat :=
  match cols with
  | [] => None
  | c :: cs => if String.eqb c key then Some 0%nat else option_map S (get_loc key cs)
  end.

(** [key in df.columns] *)
Definition contains (cols : list string) (key : string) : bool :=
  existsb (String.eqb key) cols.

Definition iat (i : nat) (r : list cell) : cell := nth i r NaN.

(** [df[key]]: the column as a Series, or [KeyError]. *)
Definition getitem (df : DataFrame) (key : string) : result Series :=
  match get_loc key (columns df) with
  | Some i => Ok (map (iat i) (rows df))
  | None => Raise (KeyError key)
  end.

Definition series_notna (s : Series) : list bool := map notna s.

Definition dropna (s : Series) : Series := filter notna s.

(** [Series.unique()]: the distinct values in order of first appearance. *)
Fixpoint unique (s : Series) : list cell :=
  match s with
  | [] => []
  | c :: cs => c :: filter (fun d => negb (cell_eqb c d)) (unique cs)
  end.

Definition isin (s : Series) (values : list cell) : list bool :=
  map (fun c => existsb (cell_eqb c) values) s.

(** [Series >= z] and [Series <= z] for an integer [z]: a missing cell
    compares false, a text cell cannot be compared with a number. *)
Definition cell_ge (z : Z) (c : cell) : result bool :=
  match c with
  | Num q => Ok (Qle_bool (inject_Z z) q)
  | NaN => Ok false
  | Str _ => Raise TypeError
  end.

Definition cell_le (z : Z) (c : cell) : result bool :=
  match c with
  | Num q => Ok (Qle_bool q (inject_Z z))
  | NaN => Ok false
  | Str _ => Raise TypeError
  end.

Definition series_ge (s : Series) (z : Z) : result (list bool) := mapM (cell_ge z) s.
Definition series_le (s : Series) (z : Z) : result (list bool) := mapM (cell_le z) s.

(** [a & b] on two boolean Series of the same frame. *)
Fixpoint mask_and (a b : list bool) : list bool :=
  match a, b with
  | x :: a', y :: b' => (x && y) :: mask_and a' b'
  | _, _ => []
  end.

(** The entries of [l] at the positions where the mask is true. *)
Fixpoint select {A : Type} (mask : list bool) (l : list A) : list A :=
  match mask, l with
  | m :: ms, x :: xs => if m then x :: select ms xs else select ms xs
  | _, _ => []
  end.

(** [df[mask]]: a new frame with the rows where the mask is true. *)
Definition getitem_mask (df : DataFrame) (mask : list bool) : DataFrame :=
  {| columns := columns df; rows := select mask (rows df) |}.

(** [df.copy()] *)
Definition copy (df : DataFrame) : DataFrame :=
  {| columns := columns df; rows := rows df |}.

(** The numbers of a Series without missing cells; a text cell makes the
    numeric reductions ([min], [max], [sum]) raise. *)
Definition to_float (c : cell) : result (option Q) :=
  match c with
  | Num q => Ok (Some q)
  | NaN => Ok None
  | Str _ => Raise TypeError
  end.

Definition floats (s : Series) : result (list (option Q)) := mapM to_float s.

(** ** Sorting *)

Section Sort.
Context {A : Type} (leb : A -> A -> bool).

Fixpoint insert (x : A) (l : list A) : list A :=
  match l with
  | [] => [x]
  | y :: l' => if leb x y then x :: l else y :: insert x l'
  end.

Fixpoint sort (l : list A) : list A :=
  match l with
  | [] => []
  | x :: l' => insert x (sort l')
  end.

End Sort.

(** Python's [sorted] on a list of cells: comparing a text with a number
    raises [TypeError]. *)
Definition sorted (l : list cell) : result (list cell) :=
  if existsb is_str l && existsb is_num l then Raise TypeError
  else Ok (sort cell_leb l).

(** Python's [int] on a float: truncation toward zero. *)
Definition int (q : Q) : Z :=
  if Qle_bool 0 q then Qfloor q else Qceiling q.

(** ** The sidebar

    [st.sidebar] is an object with the two widget methods the script calls.
    Each call returns what the user has chosen in that widget. *)

Record Sidebar : Type := mkSidebar {
  (** [multiselect(label, options, default=...)] *)
  multiselect : string -> list cell -> list cell -> list cell;
  (** [slider(label, min_value=, max_value=, value=, step=)] *)
  slider : string -> Z -> Z -> Z * Z -> Z -> Z * Z
}.

(** [st.sidebar.slider(...)] as the script calls it: the widget cannot be
    drawn unless [min_value] is below [max_value], and the call raises; drawn,
    it returns the user's range. *)
Definition st_slider (sidebar : Sidebar) (label : string) (min_value max_value : Z)
    (value : Z * Z) (step : Z) : result (Z * Z) :=
  if (min_value <? max_value)%Z
  then Ok (slider sidebar label min_value max_value value step)
  else Raise StreamlitAPIException.

Definition ALL : string := "All (no filter)".

Definition multiselect_with_all (sidebar : Sidebar) (label : string)
    (options : list cell) (default_all : bool) : result (list cell) :=
  (sorted_options <- sorted options ;;
   let extended := Str ALL :: sorted_options in
   let default_sel := if default_all then [Str ALL] else extended in
   let sel := multiselect sidebar label extended default_sel in
   if existsb (cell_eqb (Str ALL)) sel then Ok [] else Ok sel)%result.

(** ** 1) Sidebar filters (lines 62-125) *)

(** One of the six blocks [# Filter: <column>]. *)
Definition categorical_filter (sidebar : Sidebar) (col : string)
    (df_filtered : DataFrame) : result DataFrame :=
  if contains (columns df_filtered) col then
    (s <- getitem df_filtered col ;;
     let options := unique (dropna s) in
     selected <- multiselect_with_all sidebar col options true ;;
     match selected with
     | [] => Ok df_filtered
     | _ :: _ =>
         s' <- getitem df_filtered col ;;
         Ok (getitem_mask df_filtered (isin s' selected))
     end)%result
  else Ok df_filtered.

Fixpoint Qmin_list (x : Q) (l : list Q) : Q :=
  match l with
  | [] => x
  | y :: l' => Qmin_list (if Qle_bool y x then y else x) l'
  end.

Fixpoint Qmax_list (x : Q) (l : list Q) : Q :=
  match l with
  | [] => x
  | y :: l' => Qmax_list (if Qle_bool x y then y else x) l'
  end.

Fixpoint somes {A : Type} (l : list (option A)) : list A :=
  match l with
  | [] => []
  | Some x :: l' => x :: somes l'
  | None :: l' => somes l'
  end.

(** The bounds offered by the year slider (lines 107-112). *)
Definition year_bounds (df_filtered : DataFrame) : result (Z * Z) :=
  if contains (columns df_filtered) "Start year" then
    (s <- getitem df_filtered "Start year" ;;
     let valid_years := dropna s in
     ys <- floats valid_years ;;
     match somes ys with
     | [] => Ok (1900, 2100)%Z
     | y :: ys' => Ok (int (Qmin_list y ys'), int (Qmax_list y ys'))
     end)%result
  else Ok (1900, 2100)%Z.

(** The range filter on [Start year] (lines 121-125). *)
Definition year_filter (df_filtered : DataFrame) (start_low start_high : Z)
    : result DataFrame :=
  (s1 <- getitem df_filtered "Start year" ;;
   let m1 := series_notna s1 in
   s2 <- getitem df_filtered "Start year" ;;
   m2 <- series_ge s2 start_low ;;
   s3 <- getitem df_filtered "Start year" ;;
   m3 <- series_le s3 start_high ;;
   Ok (getitem_mask df_filtered (mask_and (mask_and m1 m2) m3)))%result.

Definition categorical_columns : list string :=
  ["Plant Type"; "Technology"; "Region"; "Subregion"; "Country/area"; "Status"]%string.

(** The whole filter section: [df_filtered = df.copy()], the six categorical
    blocks in the order of the script, the slider, the range filter. *)
Definition sidebar_filters (sidebar : Sidebar) (df : DataFrame) : result DataFrame :=
  (let df_filtered := copy df in
   df_filtered <- categorical_filter sidebar "Plant Type" df_filtered ;;
   df_filtered <- categorical_filter sidebar "Technology" df_filtered ;;
   df_filtered <- categorical_filter sidebar "Region" df_filtered ;;
   df_filtered <- categorical_filter sidebar "Subregion" df_filtered ;;
   df_filtered <- categorical_filter sidebar "Country/area" df_filtered ;;
   df_filtered <- categorical_filter sidebar "Status" df_filtered ;;
   bounds <- year_bounds df_filtered ;;
   let min_year := fst bounds in
   let max_year := snd bounds in
   range <- st_slider sidebar "Start year range" min_year max_year
              (min_year, max_year) 1%Z ;;
   let start_low := fst range in
   let start_high := snd range in
   year_filter df_filtered start_low start_high)%result.

(** ** pandas: [dropna(subset=...)], [groupby(...)[...].sum()], [cumsum] *)

Fixpoint get_locs (keys : list string) (cols : list string) : result (list nat) :=
  match keys with
  | [] => Ok []
  | k :: ks =>
      match get_loc k cols with
      | Some i => (rest <- get_locs ks cols ;; Ok (i :: rest))%result
      | None => Raise (KeyError k)
      end
  end.

(** [df.dropna(subset=keys)]: the rows with no missing cell in the columns
    [keys]. *)
Definition dropna_subset (df : DataFrame) (subset : list string) : result DataFrame :=
  (locs <- get_locs subset (columns df) ;;
   Ok {| columns := columns df;
         rows := filter (fun r => forallb (fun i => notna (iat i r)) locs) (rows df) |})%result.

(** Adding the value [v] to the group of key [k]: groups are kept in order
    of first appearance while the rows are scanned. *)
Fixpoint add_to_group (k : cell) (v : Q) (groups : list (cell * Q)) : list (cell * Q) :=
  match groups with
  | [] => [(k, v)]
  | (k', s) :: t =>
      if cell_eqb k' k then (k', (s + v)%Q) :: t
      else (k', s) :: add_to_group k v t
  end.

(** A row with a missing key belongs to no group ([dropna=True]); a missing
    value is skipped by [sum], that is, it adds nothing ([min_count=0]). *)
Definition group_step (groups : list (cell * Q)) (kv : cell * option Q) : list (cell * Q) :=
  match fst kv with
  | NaN => groups
  | k => add_to_group k (match snd kv with Some v => v | None => 0%Q end) groups
  end.

Definition key_leb (a b : cell * Q) : bool := cell_leb (fst a) (fst b).

(** [df.groupby(by, as_index=False)[col].sum()]: one row per key, keys sorted
    ([sort=True]).  The additions are those of rationals; they are pandas'
    on the capacities described by [exact_capacities]. *)
Definition groupby_sum (df : DataFrame) (by_ col : string) : result (list (cell * Q)) :=
  (keys <- getitem df by_ ;;
   vals <- getitem df col ;;
   vs <- floats vals ;;
   Ok (sort key_leb (fold_left group_step (combine keys vs) [])))%result.

Fixpoint cumsum_from (acc : Q) (l : list Q) : list Q :=
  match l with
  | [] => []
  | x :: l' => (acc + x)%Q :: cumsum_from (acc + x)%Q l'
  end.

Definition cumsum (l : list Q) : list Q :=
  match l with
  | [] => []
  | x :: l' => x :: cumsum_from x l'
  end.

(** ** 2) Charts (lines 140-213): the tables behind them *)

Record StatusAgg : Type := mkStatusAgg {
  Status : cell;
  TotalCapacityMW : Q;
  TotalCapacityGW : Q
}.

Record YearAgg : Type := mkYearAgg {
  Year : cell;
  NewCapMW : Q;
  NewCapGW : Q;
  CumulativeCapGW : Q
}.

(** Lines 147-154. *)
Definition cap_by_status (df_filtered : DataFrame) : result (list StatusAgg) :=
  (g <- groupby_sum df_filtered "Status" "installed capacity MW" ;;
   Ok (map (fun kv => {| Status := fst kv;
                         TotalCapacityMW := snd kv;
                         TotalCapacityGW := (snd kv / 1000)%Q |}) g))%result.

(** Lines 175-185.  The frame built by [groupby] is referenced by [df_year]
    alone, so its in-place sort and column assignments are written as
    successive values. *)
Definition df_year (df_filtered : DataFrame) : result (list YearAgg) :=
  (d <- dropna_subset df_filtered ["Start year"; "installed capacity MW"]%string ;;
   g <- groupby_sum d "Start year" "installed capacity MW" ;;
   let by_year := sort key_leb g in
   let NewCapGW_col := map (fun kv => (snd kv / 1000)%Q) by_year in
   let CumulativeCapGW_col := cumsum NewCapGW_col in
   Ok (map (fun r => {| Year := fst (fst r);
                        NewCapMW := snd (fst r);
                        NewCapGW := (snd (fst r) / 1000)%Q;
                        CumulativeCapGW := snd r |})
           (combine by_year CumulativeCapGW_col)))%result.

(** ** The library functions the script relies on *)

Record Lib : Type := mkLib {
  (** how [pd.to_numeric] reads a text as a float, [None] when it cannot *)
  str_to_float : string -> option Q;
  (** states of a numpy random generator *)
  rng : Type;
  (** [np.random.RandomState(seed)] *)
  RandomState : Z -> rng;
  (** [choice g N n]: [n] positions below [N] drawn without replacement *)
  choice : rng -> nat -> nat -> list nat
}.

Definition choice_ok (L : Lib) : Prop :=
  forall (g : rng L) (N n : nat), (n <= N)%nat ->
    length (choice L g N n) = n /\
    NoDup (choice L g N n) /\
    Forall (fun i => (i < N)%nat) (choice L g N n).

(** [pd.to_numeric(s, errors="coerce")]: a text that does not read as a
    number becomes missing. *)
Definition coerce (L : Lib) (c : cell) : cell :=
  match c with
  | Str x => match str_to_float L x with Some q => Num q | None => NaN end
  | other => other
  end.

Definition to_numeric (L : Lib) (s : Series) : Series := map (coerce L) s.

(** [df.sample(n=n, random_state=random_state)]: with a seed the draw uses a
    generator made from the seed, without one the ambient generator
    [np_random] of the process. *)
Definition sample (L : Lib) (np_random : rng L) (df : DataFrame) (n : nat)
    (random_state : option Z) : DataFrame :=
  let g := match random_state with
           | Some seed => RandomState L seed
           | None => np_random
           end in
  {| columns := columns df;
     rows := map (fun i => nth i (rows df) []) (choice L g (length (rows df)) n) |}.

(** The frame handed to [st.dataframe] (lines 131-134). *)
Definition shown_sample (L : Lib) (np_random : rng L) (df_filtered : DataFrame) : DataFrame :=
  if (10 <? length (rows df_filtered))%nat
  then sample L np_random df_filtered 10 (Some 42%Z)
  else df_filtered.

(** ** The script as it runs

    [df] and [df_filtered] are names of DataFrame objects.  The store maps a
    reference to the object's current value: [df.copy()] and [df[mask]] make
    new objects, [df[col] = ...] changes one in place.  What the script shows
    on the page, and its reading of the file, are recorded in a log. *)

Definition ref := nat.

Inductive event : Type :=
| st_error (msg : string)
| read_csv (path : string)
| st_success (msg : string)
| st_write_shape (nrows : nat) (cols : list string)
| st_subheader (title : string)
| st_write_rows (nrows : nat)
| st_write (text : string)
| st_dataframe (d : DataFrame)
| chart_status (t : list StatusAgg)
| chart_new (t : list YearAgg)
| chart_cum (t : list YearAgg).

Record state : Type := mkState {
  heap : list DataFrame;
  log : list event
}.

(** The file system: [file p] is the table [pd.read_csv(p, encoding="latin-1")]
    parses from the file at [p], [None] when there is no file at [p]. *)
Record OS : Type := mkOS {
  abspath : string -> string;
  file : string -> option DataFrame
}.

Definition path_exists (os : OS) (p : string) : bool :=
  match file os p with
  | Some _ => true
  | None => false
  end.

Definition M (A : Type) : Type := state -> result A * state.

Definition ret {A : Type} (a : A) : M A := fun st => (Ok a, st).

Definition bind {A B : Type} (m : M A) (k : A -> M B) : M B :=
  fun st =>
    match m st with
    | (Ok a, st') => k a st'
    | (Raise e, st') => (Raise e, st')
    end.

Definition raise {A : Type} (e : exn) : M A := fun st => (Raise e, st).

Definition lift {A : Type} (r : result A) : M A := fun st => (r, st).

Declare Scope script_scope.
Delimit Scope script_scope with script.
Notation "x <- m ;; k" := (bind m (fun x => k))
  (at level 61, m at next level, right associativity) : script_scope.
Notation "m ;;; k" := (bind m (fun _ => k))
  (at level 61, right associativity) : script_scope.

Definition emit (e : event) : M unit :=
  fun st => (Ok tt, {| heap := heap st; log := log st ++ [e] |}).

Definition alloc (d : DataFrame) : M ref :=
  fun st => (Ok (List.length (heap st)), {| heap := heap st ++ [d]; log := log st |}).

Definition empty_frame : DataFrame := {| columns := []; rows := [] |}.

Definition deref (r : ref) : M DataFrame :=
  fun st => (Ok (nth r (heap st) empty_frame), st).

Fixpoint update {A : Type} (i : nat) (x : A) (l : list A) : list A :=
  match i, l with
  | _, [] => []
  | O, _ :: t => x :: t
  | S i', y :: t => y :: update i' x t
  end.

Definition assign (r : ref) (d : DataFrame) : M unit :=
  fun st => (Ok tt, {| heap := update r d (heap st); log := log st |}).

(** Writing the cell [c] at position [i] of a row, padding a short row. *)
Fixpoint set_iat (i : nat) (c : cell) (r : list cell) : list cell :=
  match i, r with
  | O, [] => [c]
  | O, _ :: t => c :: t
  | S i', [] => NaN :: set_iat i' c []
  | S i', x :: t => x :: set_iat i' c t
  end.

(** [df[col] = s], in place. *)
Definition setitem (df : ref) (col : string) (s : Series) : M unit :=
  (d <- deref df ;;
   match get_loc col (columns d) with
   | Some i =>
       assign df {| columns := columns d;
                    rows := map (fun rc => set_iat i (snd rc) (fst rc)) (combine (rows d) s) |}
   | None =>
       assign df {| columns := columns d ++ [col];
                    rows := map (fun rc => set_iat (List.length (columns d)) (snd rc) (fst rc))
                                (combine (rows d) s) |}
   end)%script.

Fixpoint for_each {A : Type} (l : list A) (body : A -> M unit) : M unit :=
  match l with
  | [] => ret tt
  | x :: l' => (body x ;;; for_each l' body)%script
  end.

Definition CSV_PATH : string := "calibrate-power-stock/gem_cleaned_2025.csv".

(** [load_data]: the guard before its call makes the file exist; without a
    file [pd.read_csv] raises.  The function is decorated with
    [st.cache_data]; this is the function the decorator calls when its cache
    holds nothing for the path, as in a fresh process.  The cache, and with
    it what a rerun of the script in the same process reads, is not
    modelled. *)
Definition load_data (L : Lib) (os : OS) (csv_path : string) : M ref :=
  (emit (read_csv csv_path) ;;;
   match file os csv_path with
   | None => raise (FileNotFoundError csv_path)
   | Some table =>
       df <- alloc table ;;
       for_each ["Start year"; "Retired year"; "installed capacity MW"]%string
         (fun col =>
            d <- deref df ;;
            if contains (columns d) col then
              s <- lift (getitem d col) ;;
              setitem df col (to_numeric L s)
            else ret tt) ;;;
       ret df
   end)%script.

Definition categorical_filter_s (sidebar : Sidebar) (col : string) (df_filtered : ref)
    : M ref :=
  (d <- deref df_filtered ;;
   if contains (columns d) col then
     s <- lift (getitem d col) ;;
     let options := unique (dropna s) in
     selected <- lift (multiselect_with_all sidebar col options true) ;;
     match selected with
     | [] => ret df_filtered
     | _ :: _ =>
         s' <- lift (getitem d col) ;;
         alloc (getitem_mask d (isin s' selected))
     end
   else ret df_filtered)%script.

Definition sidebar_filters_s (sidebar : Sidebar) (df : ref) : M ref :=
  (d <- deref df ;;
   df_filtered <- alloc (copy d) ;;
   df_filtered <- categorical_filter_s sidebar "Plant Type" df_filtered ;;
   df_filtered <- categorical_filter_s sidebar "Technology" df_filtered ;;
   df_filtered <- categorical_filter_s sidebar "Region" df_filtered ;;
   df_filtered <- categorical_filter_s sidebar "Subregion" df_filtered ;;
   df_filtered <- categorical_filter_s sidebar "Country/area" df_filtered ;;
   df_filtered <- categorical_filter_s sidebar "Status" df_filtered ;;
   d' <- deref df_filtered ;;
   bounds <- lift (year_bounds d') ;;
   let min_year := fst bounds in
   let max_year := snd bounds in
   range <- lift (st_slider sidebar "Start year range" min_year max_year
                    (min_year, max_year) 1%Z) ;;
   let start_low := fst range in
   let start_high := snd range in
   d'' <- lift (year_filter d' start_low start_high) ;;
   alloc d'')%script.

(** The whole script. *)
Definition main (L : Lib) (os : OS) (sidebar : Sidebar) (np_random : rng L) : M unit :=
  (let abs_path := abspath os CSV_PATH in
   (if negb (path_exists os abs_path) then
      emit (st_error ("CSV file not found at " ++ abs_path ++ ". Check your path.")) ;;;
      raise StopException
    else ret tt) ;;;
   df <- load_data L os abs_path ;;
   emit (st_success "Data loaded successfully!") ;;;
   d <- deref df ;;
   emit (st_write_shape (List.length (rows d)) (columns d)) ;;;
   df_filtered <- sidebar_filters_s sidebar df ;;
   d <- deref df_filtered ;;
   emit (st_subheader "Filtered Data Summary") ;;;
   emit (st_write_rows (List.length (rows d))) ;;;
   emit (st_dataframe (shown_sample L np_random d)) ;;;
   (if contains (columns d) "Status"
       && contains (columns d) "installed capacity MW"
       && (0 <? List.length (rows d))%nat
    then
      emit (st_subheader "Total Installed Capacity by Status (GW)") ;;;
      t <- lift (cap_by_status d) ;;
      emit (chart_status t)
    else ret tt) ;;;
   (if contains (columns d) "Start year"
       && contains (columns d) "installed capacity MW"
       && (0 <? List.length (rows d))%nat
    then
      emit (st_subheader "Newly Added & Cumulative Capacity by Start Year (GW)") ;;;
      t <- lift (df_year d) ;;
      emit (st_write "**Newly Added Capacity by Year (GW)**") ;;;
      emit (chart_new t) ;;;
      emit (st_write "**Cumulative Installed Capacity by Year (GW)**") ;;;
      emit (chart_cum t)
    else ret tt))%script%string.

(** ** Vocabulary of the statements *)

(** The cells of a column, nothing when the frame has no such column. *)
Definition column_cells (df : DataFrame) (col : string) : Series :=
  match getitem df col with
  | Ok s => s
  | Raise _ => []
  end.

Definition num_of (c : cell) : option Q :=
  match c with
  | Num q => Some q
  | _ => None
  end.

(** A column as [read_csv] infers it: texts or numbers, not both. *)
Definition one_kind (s : Series) : bool :=
  negb (existsb is_str s && existsb is_num s).

(** A column as [pd.to_numeric] leaves it. *)
Definition no_text (s : Series) : bool :=
  forallb (fun c => negb (is_str c)) s.

Definition well_typed (df : DataFrame) : bool :=
  forallb (fun col => one_kind (column_cells df col)) categorical_columns
  && no_text (column_cells df "Start year").

(** The user has left every multiselect on "All (no filter)" or has emptied
    it. *)
Definition no_filter (sidebar : Sidebar) : Prop :=
  forall label extended default_sel,
    multiselect sidebar label extended default_sel = []
    \/ existsb (cell_eqb (Str ALL)) (multiselect sidebar label extended default_sel) = true.

(** The user's selection in the multiselect labelled [label] is [chosen]. *)
Definition chooses (sidebar : Sidebar) (label : string) (chosen : list cell) : Prop :=
  forall extended default_sel, multiselect sidebar label extended default_sel = chosen.

(** The user has set the year slider to [(low, high)]. *)
Definition slides (sidebar : Sidebar) (low high : Z) : Prop :=
  forall label min_value max_value value step,
    slider sidebar label min_value max_value value step = (low, high).

(** The [Start year] values present in a frame, and their range. *)
Definition observed_years (df : DataFrame) : list Q :=
  somes (map num_of (column_cells df "Start year")).

Definition observed_range (df : DataFrame) : option (Q * Q) :=
  match observed_years df with
  | [] => None
  | y :: ys => Some (Qmin_list y ys, Qmax_list y ys)
  end.

Definition year_passes (low high : Z) (c : cell) : bool :=
  match c with
  | Num q => Qle_bool (inject_Z low) q && Qle_bool q (inject_Z high)
  | _ => false
  end.

Inductive Subseq {A : Type} : list A -> list A -> Prop :=
| Subseq_nil : Subseq [] []
| Subseq_keep (x : A) (l1 l2 : list A) : Subseq l1 l2 -> Subseq (x :: l1) (x :: l2)
| Subseq_skip (x : A) (l1 l2 : list A) : Subseq l1 l2 -> Subseq l1 (x :: l2).

(** The frame [d] after [d[col] = pd.to_numeric(d[col], errors="coerce")],
    when it has the column. *)
Definition coerce_column (L : Lib) (col : string) (d : DataFrame) : DataFrame :=
  match get_loc col (columns d) with
  | Some i => {| columns := columns d;
                 rows := map (fun r => set_iat i (coerce L (iat i r)) r) (rows d) |}
  | None => d
  end.

Definition numeric_columns : list string :=
  ["Start year"; "Retired year"; "installed capacity MW"]%string.

(** The end of the filter section (lines 107-125) on the frame left by the
    categorical blocks: the bounds, the slider, the range filter. *)
Definition range_section (sidebar : Sidebar) (d : DataFrame) : result DataFrame :=
  (bounds <- year_bounds d ;;
   range <- st_slider sidebar "Start year range" (fst bounds) (snd bounds)
              (fst bounds, snd bounds) 1%Z ;;
   year_filter d (fst range) (snd range))%result.

(** The slider can be drawn on the frame [d]: the bounds it is offered
    differ. *)
Definition slider_drawn (d : DataFrame) : Prop :=
  match observed_range d with
  | Some (mn, mx) => (int mn < int mx)%Z
  | None => True
  end.

(** The categorical blocks for the columns [cols], one after the other. *)
Fixpoint categorical_filters (sidebar : Sidebar) (cols : list string) (d : DataFrame)
    : result DataFrame :=
  match cols with
  | [] => Ok d
  | c :: cs => rbind (categorical_filter sidebar c d) (categorical_filters sidebar cs)
  end.

(** [st'] is [st] with new objects added and nothing else changed. *)
Definition extends (st st' : state) : Prop :=
  (exists new, heap st' = heap st ++ new) /\ log st' = log st.

(** The value of the object named [r]. *)
Definition value_of (st : state) (r : ref) : DataFrame := nth r (heap st) empty_frame.

(** Running [m] from [st] adds objects to the store and ends like [res]:
    with the same exception, or with a reference to the frame of [res]. *)
Definition computes (m : M ref) (st : state) (res : result DataFrame) : Prop :=
  match m st with
  | (Ok r, st') =>
      extends st st' /\ (r < List.length (heap st'))%nat /\ res = Ok (value_of st' r)
  | (Raise e, st') => extends st st' /\ res = Raise e
  end.

Definition Qsum (l : list Q) : Q := fold_right Qplus 0%Q l.

(** The capacity a row adds to a sum: its number, nothing when it is
    missing. *)
Definition capacity_at (j : nat) (r : list cell) : Q :=
  match num_of (iat j r) with
  | Some v => v
  | None => 0%Q
  end.

(** The rows whose cell in column [i] equals the key [k]. *)
Definition rows_of_group (i : nat) (k : cell) (rs : list (list cell)) : list (list cell) :=
  filter (fun r => cell_eqb (iat i r) k) rs.

(** The sum of the capacities (column [j]) of the rows of group [k]. *)
Definition group_total (i j : nat) (k : cell) (rs : list (list cell)) : Q :=
  Qsum (map (capacity_at j) (rows_of_group i k rs)).

(** The rows with both the cell in column [i] and the cell in column [j]
    present. *)
Definition complete_rows (i j : nat) (rs : list (list cell)) : list (list cell) :=
  filter (fun r => notna (iat i r) && notna (iat j r)) rs.

(** The capacities on which the script's arithmetic is exact.  The script
    adds in float64 (in int64 when the column holds whole numbers only) and
    divides by the float 1000.0, where the definitions above add and divide
    rationals.  The two give the same figures when no operation rounds or
    wraps.  That is so when every capacity is a whole multiple of 125 MW, so
    that a total divided by 1000 is a whole number of eighths, and the
    absolute values of the capacities add up to less than 2^53, so that every
    partial sum, in whatever order the sum is formed, is a whole number that
    both formats hold: see [exact_partial_sums]. *)
Definition multiple_of_125 (q : Q) : bool :=
  let q' := Qred q in (Qden q' =? 1)%positive && (Qnum q' mod 125 =? 0)%Z.

Definition exact_capacities (j : nat) (rs : list (list cell)) : bool :=
  forallb (fun r => multiple_of_125 (capacity_at j r)) rs
  && Qle_bool (Qsum (map (fun r => Qabs (capacity_at j r)) rs)) (inject_Z (2 ^ 53 - 1)).

(** The finite float64 numbers: a significand of at most 53 bits and an
    exponent in the format's range. *)
Definition binary64 (q : Q) : Prop :=
  exists m e : Z,
    (Z.abs m < 2 ^ 53)%Z /\ (-1074 <= e <= 971)%Z /\ (q == inject_Z m * Qpower 2 e)%Q.

(** The group entries whose key equals [k]. *)
Definition same_key (k : cell) (e : cell * Q) : bool := cell_eqb (fst e) k.

(** What a scanned row adds to the sum of its group. *)
Definition value_or_zero (kv : cell * option Q) : Q :=
  match snd kv with
  | Some v => v
  | None => 0%Q
  end.

(** No two groups have the same key. *)
Definition distinct_keys (groups : list (cell * Q)) : Prop :=
  forall k, (List.length (filter (same_key k) groups) <= 1)%nat.

(** The user leaves every widget as it is offered. *)
Definition leaves_defaults (sidebar : Sidebar) : Prop :=
  (forall label extended default_sel,
     multiselect sidebar label extended default_sel = default_sel)
  /\ (forall label min_value max_value value step,
        slider sidebar label min_value max_value value step = value).

Definition whole_number (q : Q) : Prop := exists z, (q == inject_Z z)%Q.

(** The user's answers do not depend on what the widgets offer: the
    multiselect labelled [l] is set to [sel l], the slider to [range]. *)
Definition answers (sidebar : Sidebar) (sel : string -> list cell) (range : Z * Z) : Prop :=
  (forall label extended default_sel,
     multiselect sidebar label extended default_sel = sel label)
  /\ (forall label min_value max_value value step,
        slider sidebar label min_value max_value value step = range).

(** A selection filters when it is not empty and does not hold the "All"
    entry. *)
Definition filters_on (chosen : list cell) : bool :=
  match chosen with
  | [] => false
  | _ :: _ => negb (existsb (cell_eqb (Str ALL)) chosen)
  end.

(** The test of one categorical column on a row of a frame with the columns
    [cols]. *)
Definition passes_column (cols : list string) (sel : string -> list cell)
    (col : string) (r : list cell) : bool :=
  match get_loc col cols with
  | None => true
  | Some i => if filters_on (sel col) then existsb (cell_eqb (iat i r)) (sel col) else true
  end.

(** The tests of the columns [cs], all together. *)
Definition passes_columns (cols : list string) (sel : string -> list cell)
    (cs : list string) (r : list cell) : bool :=
  forallb (fun col => passes_column cols sel col r) cs.

(** What the script shows once the rows are filtered: the summary, the
    sample, then each chart section whose guard holds. *)
Definition status_section (d : DataFrame) : list event :=
  if contains (columns d) "Status"
     && contains (columns d) "installed capacity MW"
     && (0 <? List.length (rows d))%nat
  then match cap_by_status d with
       | Ok t => [st_subheader "Total Installed Capacity by Status (GW)"; chart_status t]
       | Raise _ => []
       end
  else [].

Definition year_section (d : DataFrame) : list event :=
  if contains (columns d) "Start year"
     && contains (columns d) "installed capacity MW"
     && (0 <? List.length (rows d))%nat
  then match df_year d with
       | Ok t => [st_subheader "Newly Added & Cumulative Capacity by Start Year (GW)";
                  st_write "**Newly Added Capacity by Year (GW)**";
                  chart_new t;
                  st_write "**Cumulative Installed Capacity by Year (GW)**";
                  chart_cum t]
       | Raise _ => []
       end
  else [].

Definition page (L : Lib) (np_random : rng L) (d : DataFrame) : list event :=
  [st_subheader "Filtered Data Summary";
   st_write_rows (List.length (rows d));
   st_dataframe (shown_sample L np_random d)]
  ++ status_section d ++ year_section d.

(** What the script shows once the file is loaded. *)
Definition opening (path : string) (loaded : DataFrame) : list event :=
  [read_csv path;
   st_success "Data loaded successfully!";
   st_write_shape (List.length (rows loaded)) (columns loaded)].

(** The table of the file after the coercions of [load_data]. *)
Definition coerced (L : Lib) (table : DataFrame) : DataFrame :=
  coerce_column L "installed capacity MW"
    (coerce_column L "Retired year" (coerce_column L "Start year" table)).

(** ** Example data *)

(** Three plants with a status and a capacity, and no other column. *)
Definition status_scenario : DataFrame :=
  {| columns := ["Status"; "installed capacity MW"]%string;
     rows := [ [Str "operating"; Num 1000];
               [Str "operating"; Num 2000];
               [Str "retired"; Num 500] ] |}.

(** Five plants; one has no start year, one has neither status nor
    capacity, one has a status and no capacity. *)
Definition plants : DataFrame :=
  {| columns := ["Plant Type"; "Status"; "Start year"; "installed capacity MW"]%string;
     rows := [ [Str "coal"; Str "operating"; Num 2000; Num 500];
               [Str "gas"; Str "operating"; NaN; Num 2000];
               [Str "coal"; Str "retired"; Num 2000; Num 500];
               [Str "solar"; Str "operating"; Num 2001; Num 1000];
               [Str "wind"; NaN; Num 2001; NaN];
               [Str "hydro"; Str "mothballed"; Num 2003; NaN] ] |}.

(** A user who leaves every widget as it is offered. *)
Definition untouched : Sidebar :=
  {| multiselect := fun _ _ default_sel => default_sel;
     slider := fun _ _ _ value _ => value |}.

(** A user who keeps "All" everywhere and sets the slider to [range]. *)
Definition all_with_range (range : Z * Z) : Sidebar :=
  {| multiselect := fun _ _ _ => [Str ALL];
     slider := fun _ _ _ _ _ => range |}.

(** A user who selects [chosen] in the multiselect [label], keeps "All" in
    the others and leaves the slider as offered. *)
Definition selecting (label : string) (chosen : list cell) : Sidebar :=
  {| multiselect := fun l _ _ => if String.eqb l label then chosen else [Str ALL];
     slider := fun _ _ _ value _ => value |}.

(** A user whose answers are fixed: [sel l] in the multiselect [l], [range]
    on the slider. *)
Definition answering (sel : string -> list cell) (range : Z * Z) : Sidebar :=
  {| multiselect := fun l _ _ => sel l;
     slider := fun _ _ _ _ _ => range |}.

(** A toy library: no text reads as a number; the generator state is a
    number, and a draw takes the first or the last positions according to its
    parity. *)
Definition toy_lib : Lib :=
  {| str_to_float := fun _ => None;
     rng := nat;
     RandomState := Z.to_nat;
     choice := fun g N n => if Nat.even g then seq 0 n else seq (N - n) n |}.

(** Reading a text made of decimal digits as the whole number it writes. *)
Fixpoint read_digits (acc : Z) (s : string) : option Z :=
  match s with
  | EmptyString => Some acc
  | String c s' =>
      let n := Ascii.nat_of_ascii c in
      if ((48 <=? n) && (n <=? 57))%nat
      then read_digits (10 * acc + Z.of_nat (n - 48)) s'
      else None
  end.

(** A library that reads the texts made of digits, and no other text, as
    numbers. *)
Definition digits_lib : Lib :=
  {| str_to_float := fun s => match s with
                              | EmptyString => None
                              | _ => option_map inject_Z (read_digits 0 s)
                              end;
     rng := nat;
     RandomState := Z.to_nat;
     choice := fun g N n => if Nat.even g then seq 0 n else seq (N - n) n |}.

(** A table as [read_csv] parses it from a file whose [Start year] field
    holds a word in one line: the whole column is read as text. *)
Definition raw_plants : DataFrame :=
  {| columns := ["Status"; "Start year"; "installed capacity MW"]%string;
     rows := [ [Str "operating"; Str "2000"; Num 500];
               [Str "retired"; Str "unknown"; Num 250];
               [Str "operating"; NaN; NaN] ] |}.

(** Fifteen rows, one per year from 2000. *)
Definition fifteen_years : DataFrame :=
  {| columns := ["Start year"]%string;
     rows := map (fun n => [Num (inject_Z (Z.of_nat n))]) (seq 2000 15) |}.

(** A machine without the CSV file. *)
Definition no_files : OS :=
  {| abspath := fun p => ("/srv/" ++ p)%string;
     file := fun _ => None |}.

(** A machine whose CSV file holds the table [table]. *)
Definition with_table (table : DataFrame) : OS :=
  {| abspath := fun p => ("/srv/" ++ p)%string;
     file := fun p => if String.eqb p ("/srv/" ++ CSV_PATH)%string then Some table else None |}.

Definition initial_state : state := {| heap := []; log := [] |}.

(** The store once [plants] has been loaded as the object 0. *)
Definition plants_loaded : state := {| heap := [plants]; log := [] |}.

(** * Properties *)

(** ** The result monad, masks and columns *)

Lemma rbind_Ok {A B : Type} (m : result A) (k : A -> result B) (b : B) :
  rbind m k = Ok b -> exists a, m = Ok a /\ k a = Ok b.
Proof.
  destruct m as [a|e]; simpl; intros H; [exists a; auto | discriminate].
Qed.

Lemma mapM_total {A B : Type} (f : A -> result B) (g : A -> B) (l : list A) :
  (forall x, In x l -> f x = Ok (g x)) -> mapM f l = Ok (map g l).
Proof.
  induction l as [|x l IH]; simpl; intros H; [reflexivity|].
  rewrite (H x (or_introl eq_refl)). simpl.
  rewrite IH by (intros y Hy; apply H; now right). reflexivity.
Qed.

Lemma select_map_filter {A : Type} (p : A -> bool) (l : list A) :
  select (map p l) l = filter p l.
Proof.
  induction l as [|x l IH]; simpl; [reflexivity|].
  destruct (p x); now rewrite IH.
Qed.

Lemma select_map_filter_on {A B : Type} (f : A -> B) (p : B -> bool) (l : list A) :
  select (map p (map f l)) l = filter (fun x => p (f x)) l.
Proof. rewrite map_map. apply select_map_filter. Qed.

Lemma mask_and_map {A : Type} (p q : A -> bool) (l : list A) :
  mask_and (map p l) (map q l) = map (fun x => p x && q x) l.
Proof. induction l as [|x l IH]; simpl; [reflexivity | now rewrite IH]. Qed.

Lemma Subseq_refl {A : Type} (l : list A) : Subseq l l.
Proof. induction l; constructor; assumption. Qed.

Lemma Subseq_trans {A : Type} (l1 l2 l3 : list A) :
  Subseq l1 l2 -> Subseq l2 l3 -> Subseq l1 l3.
Proof.
  intros H12 H23. revert l1 H12.
  induction H23 as [|x l2 l3 H IH|x l2 l3 H IH]; intros l1 H12.
  - assumption.
  - inversion H12; subst.
    + constructor. now apply IH.
    + apply Subseq_skip. now apply IH.
  - apply Subseq_skip. now apply IH.
Qed.

Lemma Subseq_nil_l {A : Type} (l : list A) : Subseq [] l.
Proof. induction l; constructor; assumption. Qed.

Lemma Subseq_select {A : Type} (mask : list bool) (l : list A) :
  Subseq (select mask l) l.
Proof.
  revert mask. induction l as [|x l IH]; intros [|m mask]; simpl.
  - constructor.
  - constructor.
  - apply Subseq_nil_l.
  - destruct m; constructor; apply IH.
Qed.

Lemma Subseq_filter {A : Type} (p : A -> bool) (l : list A) :
  Subseq (filter p l) l.
Proof. rewrite <- select_map_filter. apply Subseq_select. Qed.

Lemma Subseq_incl {A : Type} (l1 l2 : list A) : Subseq l1 l2 -> incl l1 l2.
Proof.
  induction 1 as [|x l1 l2 H IH|x l1 l2 H IH]; intros y Hy.
  - assumption.
  - destruct Hy as [->|Hy]; [now left | right; now apply IH].
  - right. now apply IH.
Qed.

Lemma contains_get_loc (cols : list string) (key : string) :
  contains cols key = true <-> exists i, get_loc key cols = Some i.
Proof.
  unfold contains. induction cols as [|c cols IH]; simpl.
  - split; [discriminate | intros [i Hi]; discriminate].
  - rewrite (String.eqb_sym key c). destruct (String.eqb c key).
    + split; [exists 0%nat; reflexivity | reflexivity].
    + simpl. rewrite IH. split; intros [i Hi].
      * exists (S i). now rewrite Hi.
      * destruct (get_loc key cols) as [j|]; [exists j; reflexivity | discriminate].
Qed.

Lemma contains_false_get_loc (cols : list string) (key : string) :
  contains cols key = false <-> get_loc key cols = None.
Proof.
  split; intros H.
  - destruct (get_loc key cols) as [i|] eqn:E; [|reflexivity].
    assert (contains cols key = true) by (apply contains_get_loc; eauto). congruence.
  - destruct (contains cols key) eqn:E; [|reflexivity].
    apply contains_get_loc in E. destruct E as [i Hi]. congruence.
Qed.

Lemma getitem_at (df : DataFrame) (key : string) (i : nat) :
  get_loc key (columns df) = Some i -> getitem df key = Ok (map (iat i) (rows df)).
Proof. unfold getitem. now intros ->. Qed.

Lemma column_cells_at (df : DataFrame) (key : string) (i : nat) :
  get_loc key (columns df) = Some i -> column_cells df key = map (iat i) (rows df).
Proof. intros H. unfold column_cells. now rewrite (getitem_at _ _ _ H). Qed.

(** ** The range filter on [Start year] *)

Lemma no_text_In (s : Series) (c : cell) :
  no_text s = true -> In c s -> is_str c = false.
Proof.
  unfold no_text. rewrite forallb_forall. intros H Hc.
  apply H in Hc. now destruct (is_str c).
Qed.

Lemma series_ge_total (s : Series) (z : Z) :
  no_text s = true ->
  series_ge s z = Ok (map (fun c => match c with
                                    | Num q => Qle_bool (inject_Z z) q
                                    | _ => false
                                    end) s).
Proof.
  intros H. apply mapM_total. intros c Hc.
  pose proof (no_text_In _ _ H Hc). now destruct c.
Qed.

Lemma series_le_total (s : Series) (z : Z) :
  no_text s = true ->
  series_le s z = Ok (map (fun c => match c with
                                    | Num q => Qle_bool q (inject_Z z)
                                    | _ => false
                                    end) s).
Proof.
  intros H. apply mapM_total. intros c Hc.
  pose proof (no_text_In _ _ H Hc). now destruct c.
Qed.

Lemma year_filter_rows (df : DataFrame) (low high : Z) (i : nat) :
  get_loc "Start year" (columns df) = Some i ->
  no_text (column_cells df "Start year") = true ->
  year_filter df low high =
    Ok {| columns := columns df;
          rows := filter (fun r => year_passes low high (iat i r)) (rows df) |}.
Proof.
  intros Hi Hty. unfold year_filter.
  rewrite (column_cells_at _ _ _ Hi) in Hty.
  rewrite (getitem_at _ _ _ Hi). simpl.
  rewrite (series_ge_total _ _ Hty). simpl.
  rewrite (series_le_total _ _ Hty). simpl.
  unfold getitem_mask, series_notna. f_equal. f_equal.
  rewrite !mask_and_map, select_map_filter_on.
  apply filter_ext. intros r. unfold year_passes.
  destruct (iat i r); simpl; reflexivity.
Qed.

Lemma year_filter_absent (df : DataFrame) (low high : Z) :
  get_loc "Start year" (columns df) = None ->
  year_filter df low high = Raise (KeyError "Start year").
Proof. intros H. unfold year_filter, getitem. now rewrite H. Qed.

(** C3.  On a frame whose [Start year] column is numeric, the range filter
    keeps, in order, exactly the rows whose [Start year] is present and lies
    within [low, high]; whatever the bounds, no row with a missing
    [Start year] is kept. *)
Theorem year_filter_keeps_present_in_range
    (df : DataFrame) (low high : Z) (i : nat)
    (Hcol : get_loc "Start year" (columns df) = Some i)
    (Hnum : no_text (column_cells df "Start year") = true) :
  exists df',
    year_filter df low high = Ok df'
    /\ columns df' = columns df
    /\ rows df' = filter (fun r => year_passes low high (iat i r)) (rows df)
    /\ (forall r, In r (rows df') <->
          In r (rows df)
          /\ exists q, iat i r = Num q /\ (inject_Z low <= q)%Q /\ (q <= inject_Z high)%Q)
    /\ (forall r, In r (rows df') -> iat i r <> NaN).
Proof.
  eexists. split; [apply (year_filter_rows _ _ _ _ Hcol Hnum)|]. simpl.
  assert (Hiff : forall r,
    In r (filter (fun r => year_passes low high (iat i r)) (rows df)) <->
    In r (rows df)
    /\ exists q, iat i r = Num q /\ (inject_Z low <= q)%Q /\ (q <= inject_Z high)%Q).
  { intros r. rewrite filter_In. unfold year_passes. split.
    - intros [Hin Hp]. split; [assumption|].
      destruct (iat i r) as [s|q|]; try discriminate.
      apply andb_true_iff in Hp. destruct Hp as [H1 H2].
      exists q. rewrite <- !Qle_bool_iff. auto.
    - intros [Hin [q [-> [H1 H2]]]]. split; [assumption|].
      apply andb_true_iff. rewrite !Qle_bool_iff. auto. }
  split; [reflexivity|]. split; [reflexivity|]. split; [exact Hiff|].
  intros r Hr. apply Hiff in Hr. destruct Hr as [_ [q [-> _]]]. discriminate.
Qed.

(** ** The categorical blocks *)

Lemma existsb_incl {A : Type} (p : A -> bool) (l1 l2 : list A) :
  incl l1 l2 -> existsb p l1 = true -> existsb p l2 = true.
Proof.
  intros Hincl H. apply existsb_exists in H. destruct H as [x [Hx Hp]].
  apply existsb_exists. exists x. split; [now apply Hincl | assumption].
Qed.

Lemma one_kind_incl (s' s : Series) :
  incl s' s -> one_kind s = true -> one_kind s' = true.
Proof.
  unfold one_kind. intros Hincl H.
  apply negb_true_iff in H. apply negb_true_iff.
  apply andb_false_iff in H. apply andb_false_iff.
  destruct H as [H|H]; [left|right];
    (destruct (existsb _ s') eqn:E; [|reflexivity]);
    apply (existsb_incl _ _ _ Hincl) in E; congruence.
Qed.

Lemma unique_incl (s : Series) : incl (unique s) s.
Proof.
  induction s as [|c s IH]; simpl; intros x Hx; [assumption|].
  destruct Hx as [->|Hx]; [now left|].
  apply filter_In in Hx. right. apply IH. tauto.
Qed.

Lemma dropna_incl (s : Series) : incl (dropna s) s.
Proof. intros x Hx. apply filter_In in Hx. tauto. Qed.

Lemma sorted_total (l : list cell) :
  one_kind l = true -> sorted l = Ok (sort cell_leb l).
Proof.
  unfold one_kind, sorted. intros H. apply negb_true_iff in H. now rewrite H.
Qed.

Lemma options_one_kind (s : Series) :
  one_kind s = true -> one_kind (unique (dropna s)) = true.
Proof.
  apply one_kind_incl. intros x Hx. apply dropna_incl, unique_incl, Hx.
Qed.

(** What a block does when it does not raise: nothing, or it keeps the rows
    whose cell is in the selection returned by the widget. *)
Lemma categorical_filter_Ok (sidebar : Sidebar) (col : string) (d d' : DataFrame) :
  categorical_filter sidebar col d = Ok d' ->
  d' = d
  \/ exists i extended default_sel,
       get_loc col (columns d) = Some i
       /\ multiselect sidebar col extended default_sel <> []
       /\ existsb (cell_eqb (Str ALL)) (multiselect sidebar col extended default_sel) = false
       /\ d' = {| columns := columns d;
                  rows := filter (fun r => existsb (cell_eqb (iat i r))
                                             (multiselect sidebar col extended default_sel))
                                 (rows d) |}.
Proof.
  unfold categorical_filter. destruct (contains (columns d) col) eqn:Hc.
  - apply contains_get_loc in Hc. destruct Hc as [i Hi].
    rewrite (getitem_at _ _ _ Hi). simpl.
    unfold multiselect_with_all.
    destruct (sorted (unique (dropna (map (iat i) (rows d))))) as [so|e]; simpl;
      [|discriminate].
    destruct (existsb (cell_eqb (Str ALL)) (multiselect sidebar col (Str ALL :: so) [Str ALL]))
      eqn:Hall; simpl.
    + intros H. left. congruence.
    + destruct (multiselect sidebar col (Str ALL :: so) [Str ALL]) as [|v sel] eqn:Hsel.
      * intros H. left. congruence.
      * simpl. intros H. right. exists i, (Str ALL :: so), [Str ALL].
        rewrite Hsel. repeat split; try assumption; try discriminate.
        injection H as <-. unfold getitem_mask, isin. f_equal.
        apply select_map_filter_on.
  - intros H. left. congruence.
Qed.

Lemma categorical_filter_absent (sidebar : Sidebar) (col : string) (d : DataFrame) :
  get_loc col (columns d) = None -> categorical_filter sidebar col d = Ok d.
Proof.
  intros H. unfold categorical_filter.
  apply contains_false_get_loc in H. now rewrite H.
Qed.

Lemma categorical_filter_total (sidebar : Sidebar) (col : string) (d : DataFrame) :
  one_kind (column_cells d col) = true ->
  exists d', categorical_filter sidebar col d = Ok d'.
Proof.
  intros Hk. unfold categorical_filter. destruct (contains (columns d) col) eqn:Hc;
    [|eexists; reflexivity].
  apply contains_get_loc in Hc. destruct Hc as [i Hi].
  rewrite (column_cells_at _ _ _ Hi) in Hk.
  rewrite (getitem_at _ _ _ Hi). simpl.
  unfold multiselect_with_all.
  rewrite (sorted_total _ (options_one_kind _ Hk)). simpl.
  destruct (existsb _ _); simpl; [eexists; reflexivity|].
  destruct (multiselect _ _ _ _); simpl; eexists; reflexivity.
Qed.

Lemma categorical_filter_no_filter (sidebar : Sidebar) (col : string) (d : DataFrame) :
  no_filter sidebar ->
  one_kind (column_cells d col) = true ->
  categorical_filter sidebar col d = Ok d.
Proof.
  intros Hno Hk. unfold categorical_filter. destruct (contains (columns d) col) eqn:Hc;
    [|reflexivity].
  apply contains_get_loc in Hc. destruct Hc as [i Hi].
  rewrite (column_cells_at _ _ _ Hi) in Hk.
  rewrite (getitem_at _ _ _ Hi). simpl.
  unfold multiselect_with_all.
  rewrite (sorted_total _ (options_one_kind _ Hk)). simpl.
  destruct (Hno col (Str ALL :: sort cell_leb (unique (dropna (map (iat i) (rows d)))))
              [Str ALL]) as [H|H]; rewrite H; reflexivity.
Qed.

Lemma categorical_filter_shape (sidebar : Sidebar) (col : string) (d d' : DataFrame) :
  categorical_filter sidebar col d = Ok d' ->
  columns d' = columns d /\ Subseq (rows d') (rows d).
Proof.
  intros H. apply categorical_filter_Ok in H.
  destruct H as [->|[i [ext [def [_ [_ [_ ->]]]]]]]; simpl.
  - split; [reflexivity | apply Subseq_refl].
  - split; [reflexivity | apply Subseq_filter].
Qed.

Lemma categorical_filters_shape (sidebar : Sidebar) (cols : list string) (d d' : DataFrame) :
  categorical_filters sidebar cols d = Ok d' ->
  columns d' = columns d /\ Subseq (rows d') (rows d).
Proof.
  revert d. induction cols as [|c cols IH]; simpl; intros d H.
  - injection H as <-. split; [reflexivity | apply Subseq_refl].
  - apply rbind_Ok in H. destruct H as [d1 [H1 H2]].
    apply categorical_filter_shape in H1. apply IH in H2.
    destruct H1 as [Hc1 Hs1], H2 as [Hc2 Hs2]. split; [congruence|].
    eapply Subseq_trans; eassumption.
Qed.

Lemma column_cells_incl (d d' : DataFrame) (col : string) :
  columns d' = columns d -> incl (rows d') (rows d) ->
  incl (column_cells d' col) (column_cells d col).
Proof.
  intros Hc Hr. unfold column_cells, getitem. rewrite Hc.
  destruct (get_loc col (columns d)) as [i|]; [|intros x Hx; assumption].
  intros x Hx. apply in_map_iff in Hx. destruct Hx as [r [<- Hin]].
  apply in_map. now apply Hr.
Qed.

Lemma categorical_filters_total (sidebar : Sidebar) (cols : list string) (d : DataFrame) :
  forallb (fun col => one_kind (column_cells d col)) cols = true ->
  exists d', categorical_filters sidebar cols d = Ok d'.
Proof.
  revert d. induction cols as [|c cols IH]; simpl; intros d H.
  - eexists; reflexivity.
  - apply andb_true_iff in H. destruct H as [Hc Hcols].
    destruct (categorical_filter_total sidebar c d Hc) as [d1 H1].
    rewrite H1. simpl. apply IH.
    apply categorical_filter_shape in H1. destruct H1 as [Hcol Hsub].
    rewrite forallb_forall in *. intros col Hin.
    eapply one_kind_incl; [|apply Hcols, Hin].
    apply column_cells_incl; [assumption | now apply Subseq_incl].
Qed.

Lemma categorical_filters_no_filter (sidebar : Sidebar) (cols : list string) (d : DataFrame) :
  no_filter sidebar ->
  forallb (fun col => one_kind (column_cells d col)) cols = true ->
  categorical_filters sidebar cols d = Ok d.
Proof.
  intros Hno. induction cols as [|c cols IH]; simpl; intros H; [reflexivity|].
  apply andb_true_iff in H. destruct H as [Hc Hcols].
  rewrite (categorical_filter_no_filter _ _ _ Hno Hc). simpl. now apply IH.
Qed.

Lemma sidebar_filters_unfold (sidebar : Sidebar) (df : DataFrame) :
  sidebar_filters sidebar df =
    (d <- categorical_filters sidebar categorical_columns (copy df) ;;
     range_section sidebar d)%result.
Proof.
  unfold sidebar_filters, categorical_columns, range_section. simpl.
  repeat match goal with
         | |- context [categorical_filter ?s ?c ?d] =>
             destruct (categorical_filter s c d); simpl; try reflexivity
         end.
Qed.

(** The range section ends normally only when the slider was drawn; the
    frame it returns is then the range filter's, for the user's range. *)
Lemma range_section_Ok (sidebar : Sidebar) (d d' : DataFrame) :
  range_section sidebar d = Ok d' ->
  exists bounds,
    year_bounds d = Ok bounds
    /\ (fst bounds < snd bounds)%Z
    /\ year_filter d
         (fst (slider sidebar "Start year range" (fst bounds) (snd bounds)
                 (fst bounds, snd bounds) 1%Z))
         (snd (slider sidebar "Start year range" (fst bounds) (snd bounds)
                 (fst bounds, snd bounds) 1%Z)) = Ok d'.
Proof.
  unfold range_section, st_slider. intros H.
  apply rbind_Ok in H. destruct H as [b [Hb H]]. exists b. split; [assumption|].
  destruct (Z.ltb_spec (fst b) (snd b)) as [Hlt|Hge]; simpl in H; [|discriminate].
  split; assumption.
Qed.

Lemma range_section_drawn (sidebar : Sidebar) (d : DataFrame) (bounds : Z * Z) :
  year_bounds d = Ok bounds ->
  (fst bounds < snd bounds)%Z ->
  range_section sidebar d =
    year_filter d
      (fst (slider sidebar "Start year range" (fst bounds) (snd bounds)
              (fst bounds, snd bounds) 1%Z))
      (snd (slider sidebar "Start year range" (fst bounds) (snd bounds)
              (fst bounds, snd bounds) 1%Z)).
Proof.
  intros Hb Hlt. unfold range_section, st_slider. rewrite Hb. simpl.
  apply Z.ltb_lt in Hlt. now rewrite Hlt.
Qed.

Lemma range_section_not_drawn (sidebar : Sidebar) (d : DataFrame) (bounds : Z * Z) :
  year_bounds d = Ok bounds ->
  (snd bounds <= fst bounds)%Z ->
  range_section sidebar d = Raise StreamlitAPIException.
Proof.
  intros Hb Hge. unfold range_section, st_slider. rewrite Hb. simpl.
  apply Z.ltb_ge in Hge. now rewrite Hge.
Qed.

Lemma copy_eq (df : DataFrame) : copy df = df.
Proof. now destruct df. Qed.

Lemma floats_total (s : Series) :
  no_text s = true -> floats s = Ok (map num_of s).
Proof.
  intros H. apply mapM_total. intros c Hc.
  pose proof (no_text_In _ _ H Hc). now destruct c.
Qed.

Lemma no_text_incl (s' s : Series) :
  incl s' s -> no_text s = true -> no_text s' = true.
Proof.
  unfold no_text. rewrite !forallb_forall. intros Hincl H c Hc. apply H, Hincl, Hc.
Qed.

Lemma year_bounds_total (d : DataFrame) :
  no_text (column_cells d "Start year") = true ->
  exists bounds, year_bounds d = Ok bounds.
Proof.
  intros H. unfold year_bounds.
  destruct (contains (columns d) "Start year") eqn:Hc; [|eexists; reflexivity].
  apply contains_get_loc in Hc. destruct Hc as [i Hi].
  rewrite (column_cells_at _ _ _ Hi) in H.
  rewrite (getitem_at _ _ _ Hi). simpl.
  rewrite (floats_total _ (no_text_incl _ _ (dropna_incl _) H)). simpl.
  destruct (somes _); eexists; reflexivity.
Qed.

Lemma year_filter_shape (d d' : DataFrame) (low high : Z) :
  year_filter d low high = Ok d' ->
  columns d' = columns d /\ Subseq (rows d') (rows d).
Proof.
  unfold year_filter. intros H.
  apply rbind_Ok in H. destruct H as [s1 [_ H]].
  apply rbind_Ok in H. destruct H as [s2 [_ H]].
  apply rbind_Ok in H. destruct H as [m2 [_ H]].
  apply rbind_Ok in H. destruct H as [s3 [_ H]].
  apply rbind_Ok in H. destruct H as [m3 [_ H]].
  injection H as <-. simpl. split; [reflexivity | apply Subseq_select].
Qed.

Lemma sidebar_filters_shape (sidebar : Sidebar) (df df' : DataFrame) :
  sidebar_filters sidebar df = Ok df' ->
  columns df' = columns df /\ Subseq (rows df') (rows df).
Proof.
  rewrite sidebar_filters_unfold, copy_eq. intros H.
  apply rbind_Ok in H. destruct H as [d [Hd H]].
  apply range_section_Ok in H. destruct H as [b [_ [_ H]]].
  apply categorical_filters_shape in Hd. apply year_filter_shape in H.
  destruct Hd as [Hc1 Hs1], H as [Hc2 Hs2]. split; [congruence|].
  eapply Subseq_trans; eassumption.
Qed.

Lemma categorical_filter_chosen (sidebar : Sidebar) (col : string) (d d' : DataFrame)
    (chosen : list cell) (i : nat) :
  get_loc col (columns d) = Some i ->
  chooses sidebar col chosen ->
  chosen <> [] ->
  existsb (cell_eqb (Str ALL)) chosen = false ->
  categorical_filter sidebar col d = Ok d' ->
  d' = {| columns := columns d;
          rows := filter (fun r => existsb (cell_eqb (iat i r)) chosen) (rows d) |}.
Proof.
  intros Hi Hch Hne Hall. unfold categorical_filter.
  assert (Hc : contains (columns d) col = true) by (apply contains_get_loc; eauto).
  rewrite Hc, (getitem_at _ _ _ Hi). simpl. unfold multiselect_with_all.
  destruct (sorted _) as [so|e]; simpl; [|discriminate].
  rewrite (Hch (Str ALL :: so) [Str ALL]), Hall. simpl.
  destruct chosen as [|v chosen]; [congruence|]. simpl.
  intros H. injection H as <-. unfold getitem_mask, isin. f_equal.
  apply select_map_filter_on.
Qed.

Lemma categorical_filters_chosen (sidebar : Sidebar) (cols : list string) (col : string)
    (chosen : list cell) (i : nat) (d d' : DataFrame) :
  In col cols ->
  get_loc col (columns d) = Some i ->
  chooses sidebar col chosen ->
  chosen <> [] ->
  existsb (cell_eqb (Str ALL)) chosen = false ->
  categorical_filters sidebar cols d = Ok d' ->
  forall r, In r (rows d') -> existsb (cell_eqb (iat i r)) chosen = true.
Proof.
  intros Hin Hi Hch Hne Hall. revert d Hi Hin.
  induction cols as [|c cols IH]; simpl; intros d Hi Hin H; [contradiction|].
  apply rbind_Ok in H. destruct H as [d1 [H1 H2]].
  destruct (string_dec c col) as [->|Hneq].
  - pose proof (categorical_filter_chosen _ _ _ _ _ _ Hi Hch Hne Hall H1) as ->.
    apply categorical_filters_shape in H2. destruct H2 as [_ Hsub].
    intros r Hr. apply (Subseq_incl _ _ Hsub) in Hr. simpl in Hr.
    apply filter_In in Hr. tauto.
  - destruct Hin as [Heq|Hin]; [contradiction|].
    apply categorical_filter_shape in H1. destruct H1 as [Hcols _].
    apply (IH d1); [now rewrite Hcols | assumption | assumption].
Qed.

(** C4.  When the user's selection for one of the six categorical columns,
    present in the frame, is a non-empty set of values (without the "All"
    entry), every row of the filtered frame has a cell in that column that is
    one of the selected values, and none has a missing cell there. *)
Theorem selected_values_only
    (sidebar : Sidebar) (df df' : DataFrame) (col : string) (chosen : list cell) (i : nat)
    (Hcat : In col categorical_columns)
    (Hcol : get_loc col (columns df) = Some i)
    (Hsel : chooses sidebar col chosen)
    (Hne : chosen <> [])
    (Hall : existsb (cell_eqb (Str ALL)) chosen = false)
    (Hval : Forall (fun v => notna v = true) chosen)
    (Hrun : sidebar_filters sidebar df = Ok df') :
  Forall (fun r => (exists v, In v chosen /\ cell_eqb (iat i r) v = true)
                   /\ iat i r <> NaN)
         (rows df').
Proof.
  rewrite sidebar_filters_unfold, copy_eq in Hrun.
  apply rbind_Ok in Hrun. destruct Hrun as [d [Hd H]].
  apply range_section_Ok in H. destruct H as [b [_ [_ H]]].
  apply year_filter_shape in H. destruct H as [_ Hsub].
  apply Forall_forall. intros r Hr. apply (Subseq_incl _ _ Hsub) in Hr.
  pose proof (categorical_filters_chosen _ _ _ _ _ _ _ Hcat Hcol Hsel Hne Hall Hd r Hr) as Hin.
  apply existsb_exists in Hin. destruct Hin as [v [Hv Heq]].
  split; [exists v; auto|].
  intros Hnan. rewrite Hnan in Heq. rewrite Forall_forall in Hval.
  apply Hval in Hv. destruct v; simpl in *; discriminate.
Qed.

(** ** No filter and the full year range *)

Lemma Qmin_list_le (l : list Q) (x : Q) :
  (Qmin_list x l <= x)%Q /\ forall q, In q l -> (Qmin_list x l <= q)%Q.
Proof.
  revert x. induction l as [|y l IH]; simpl; intros x.
  - split; [apply Qle_refl | contradiction].
  - destruct (Qle_bool y x) eqn:E.
    + apply Qle_bool_iff in E. destruct (IH y) as [H1 H2]. split.
      * eapply Qle_trans; eassumption.
      * intros q [<-|Hq]; [assumption | now apply H2].
    + assert (x <= y)%Q.
      { destruct (Qlt_le_dec x y) as [Hlt|Hle]; [now apply Qlt_le_weak|].
        apply Qle_bool_iff in Hle. congruence. }
      destruct (IH x) as [H1 H2]. split; [assumption|].
      intros q [<-|Hq]; [eapply Qle_trans; eassumption | now apply H2].
Qed.

Lemma Qmax_list_ge (l : list Q) (x : Q) :
  (x <= Qmax_list x l)%Q /\ forall q, In q l -> (q <= Qmax_list x l)%Q.
Proof.
  revert x. induction l as [|y l IH]; simpl; intros x.
  - split; [apply Qle_refl | contradiction].
  - destruct (Qle_bool x y) eqn:E.
    + apply Qle_bool_iff in E. destruct (IH y) as [H1 H2]. split.
      * eapply Qle_trans; eassumption.
      * intros q [<-|Hq]; [assumption | now apply H2].
    + assert (y <= x)%Q.
      { destruct (Qlt_le_dec y x) as [Hlt|Hle]; [now apply Qlt_le_weak|].
        apply Qle_bool_iff in Hle. congruence. }
      destruct (IH x) as [H1 H2]. split; [assumption|].
      intros q [<-|Hq]; [eapply Qle_trans; eassumption | now apply H2].
Qed.

Lemma somes_In {A : Type} (l : list (option A)) (x : A) :
  In (Some x) l -> In x (somes l).
Proof.
  induction l as [|[y|] l IH]; simpl; intros H.
  - contradiction.
  - destruct H as [H|H]; [left; congruence | right; auto].
  - destruct H as [H|H]; [discriminate | auto].
Qed.

Lemma observed_range_covers (df : DataFrame) (mn mx q : Q) :
  observed_range df = Some (mn, mx) -> In q (observed_years df) ->
  (mn <= q)%Q /\ (q <= mx)%Q.
Proof.
  unfold observed_range. destruct (observed_years df) as [|y ys]; [discriminate|].
  intros H Hq. injection H as <- <-.
  destruct (Qmin_list_le ys y) as [H1 H2], (Qmax_list_ge ys y) as [H3 H4].
  destruct Hq as [<-|Hq]; auto.
Qed.

Lemma filter_all {A : Type} (p : A -> bool) (l : list A) :
  forallb p l = true -> filter p l = l.
Proof.
  induction l as [|x l IH]; simpl; [reflexivity|].
  intros H. apply andb_true_iff in H. destruct H as [-> H]. now rewrite IH.
Qed.

Lemma int_inject_Z (z : Z) : int (inject_Z z) = z.
Proof. unfold int. destruct (Qle_bool 0 (inject_Z z)); [apply Qfloor_Z | apply Qceiling_Z]. Qed.

Lemma int_comp (q q' : Q) : (q == q')%Q -> int q = int q'.
Proof.
  intros H. unfold int. rewrite (Qleb_comp 0 0 (Qeq_refl 0) q q' H).
  now rewrite (Qfloor_comp q q' H), (Qceiling_comp q q' H).
Qed.

Lemma int_le (q1 q2 : Q) : (q1 <= q2)%Q -> (int q1 <= int q2)%Z.
Proof.
  intros H. unfold int.
  destruct (Qle_bool 0 q1) eqn:E1, (Qle_bool 0 q2) eqn:E2.
  - now apply Qfloor_resp_le.
  - apply Qle_bool_iff in E1.
    assert (Qle_bool 0 q2 = true) by (apply Qle_bool_iff; eapply Qle_trans; eassumption).
    congruence.
  - apply Qle_bool_iff in E2.
    assert (H1 : (q1 <= 0)%Q).
    { destruct (Qlt_le_dec q1 0) as [Hlt|Hle]; [now apply Qlt_le_weak|].
      apply Qle_bool_iff in Hle. congruence. }
    apply Qceiling_resp_le in H1. apply Qfloor_resp_le in E2.
    change 0%Q with (inject_Z 0) in H1, E2. rewrite Qceiling_Z in H1.
    rewrite Qfloor_Z in E2. lia.
  - now apply Qceiling_resp_le.
Qed.

Lemma floats_Ok (s : Series) (ys : list (option Q)) :
  floats s = Ok ys -> ys = map num_of s.
Proof.
  revert ys. induction s as [|c s IH]; simpl; intros ys H.
  - now injection H as <-.
  - apply rbind_Ok in H. destruct H as [y [Hy H]].
    apply rbind_Ok in H. destruct H as [ys' [Hys H]]. injection H as <-.
    rewrite (IH ys' Hys). f_equal. destruct c; simpl in *; congruence.
Qed.

Lemma somes_dropna (s : Series) :
  somes (map num_of (dropna s)) = somes (map num_of s).
Proof.
  induction s as [|c s IH]; simpl; [reflexivity|].
  destruct c; simpl; now rewrite IH.
Qed.

Lemma year_bounds_Ok (d : DataFrame) (bounds : Z * Z) :
  year_bounds d = Ok bounds ->
  bounds = match observed_range d with
           | Some (mn, mx) => (int mn, int mx)
           | None => (1900, 2100)%Z
           end.
Proof.
  unfold year_bounds, observed_range, observed_years, column_cells.
  destruct (contains (columns d) "Start year") eqn:Hc.
  - apply contains_get_loc in Hc. destruct Hc as [i Hi].
    rewrite (getitem_at _ _ _ Hi). simpl. intros H.
    apply rbind_Ok in H. destruct H as [ys [Hys H]].
    apply floats_Ok in Hys. rewrite Hys, somes_dropna in H.
    destruct (somes (map num_of (map (iat i) (rows d)))); congruence.
  - apply contains_false_get_loc in Hc. unfold getitem. rewrite Hc. simpl. congruence.
Qed.

Lemma Qmin_le_Qmax (y : Q) (ys : list Q) : (Qmin_list y ys <= Qmax_list y ys)%Q.
Proof.
  destruct (Qmin_list_le ys y) as [H1 _], (Qmax_list_ge ys y) as [H2 _].
  eapply Qle_trans; eassumption.
Qed.

(** C1, as the code has it.  With no categorical filter and the slider on
    the full observed range [low, high] of [Start year], where [low < high]
    (on a single year the slider cannot be drawn and the script stops), the
    filter section returns, from a typed frame that has the [Start year]
    column, the rows whose [Start year] is present, in order and unchanged;
    it returns the whole frame when no row misses its [Start year]. *)
Theorem no_filter_keeps_rows_with_start_year
    (sidebar : Sidebar) (df : DataFrame) (i : nat) (low high : Z) (mn mx : Q)
    (Hty : well_typed df = true)
    (Hcol : get_loc "Start year" (columns df) = Some i)
    (Hno : no_filter sidebar)
    (Hsl : slides sidebar low high)
    (Hobs : observed_range df = Some (mn, mx))
    (Hlow : (inject_Z low == mn)%Q)
    (Hhigh : (inject_Z high == mx)%Q)
    (Hlt : (low < high)%Z) :
  sidebar_filters sidebar df =
    Ok {| columns := columns df;
          rows := filter (fun r => notna (iat i r)) (rows df) |}
  /\ (forallb (fun r => notna (iat i r)) (rows df) = true ->
      sidebar_filters sidebar df = Ok df).
Proof.
  unfold well_typed in Hty. apply andb_true_iff in Hty. destruct Hty as [Hcat Hnum].
  assert (Hres : sidebar_filters sidebar df =
                 Ok {| columns := columns df;
                       rows := filter (fun r => notna (iat i r)) (rows df) |}).
  { rewrite sidebar_filters_unfold, copy_eq.
    rewrite (categorical_filters_no_filter _ _ _ Hno Hcat). simpl.
    destruct (year_bounds_total _ Hnum) as [b Hb].
    assert (Eb : b = (low, high)).
    { rewrite (year_bounds_Ok _ _ Hb), Hobs.
      now rewrite <- (int_comp _ _ Hlow), <- (int_comp _ _ Hhigh), !int_inject_Z. }
    subst b. rewrite (range_section_drawn sidebar df (low, high) Hb Hlt).
    rewrite Hsl. simpl.
    rewrite (year_filter_rows _ _ _ _ Hcol Hnum). f_equal. f_equal.
    apply filter_ext_in. intros r Hr.
    assert (Hc : In (iat i r) (column_cells df "Start year")).
    { rewrite (column_cells_at _ _ _ Hcol). now apply in_map. }
    pose proof (no_text_In _ _ Hnum Hc) as Hstr.
    destruct (iat i r) as [s|q|] eqn:E; simpl in *; try discriminate; try reflexivity.
    assert (Hq : In q (observed_years df)).
    { unfold observed_years. apply somes_In. change (Some q) with (num_of (Num q)).
      now apply in_map. }
    destruct (observed_range_covers _ _ _ _ Hobs Hq) as [H1 H2].
    apply andb_true_iff. rewrite !Qle_bool_iff, Hlow, Hhigh. auto. }
  split; [exact Hres|].
  intros Hall. rewrite Hres. rewrite (filter_all _ _ Hall). now destruct df.
Qed.

(** ** The filter section on the store *)

Lemma extends_refl (st : state) : extends st st.
Proof. split; [exists []; now rewrite app_nil_r | reflexivity]. Qed.

Lemma extends_trans (st1 st2 st3 : state) :
  extends st1 st2 -> extends st2 st3 -> extends st1 st3.
Proof.
  intros [[n1 H1] L1] [[n2 H2] L2]. split; [|congruence].
  exists (n1 ++ n2). now rewrite H2, H1, app_assoc.
Qed.

Lemma extends_value_of (st st' : state) (r : ref) :
  extends st st' -> (r < List.length (heap st))%nat -> value_of st' r = value_of st r.
Proof.
  intros [[new H] _] Hr. unfold value_of. rewrite H. now apply app_nth1.
Qed.

Lemma extends_valid (st st' : state) (r : ref) :
  extends st st' -> (r < List.length (heap st))%nat -> (r < List.length (heap st'))%nat.
Proof.
  intros [[new H] _] Hr. rewrite H, length_app. lia.
Qed.

Lemma alloc_computes (d : DataFrame) (st : state) : computes (alloc d) st (Ok d).
Proof.
  unfold computes, alloc, value_of. simpl. split; [|split].
  - split; [exists [d]; reflexivity | reflexivity].
  - rewrite length_app. simpl. lia.
  - now rewrite nth_middle.
Qed.

Lemma computes_bind (m : M ref) (k : ref -> M ref) (st : state)
    (res : result DataFrame) (f : DataFrame -> result DataFrame) :
  computes m st res ->
  (forall r st', (r < List.length (heap st'))%nat ->
                 computes (k r) st' (f (value_of st' r))) ->
  computes (bind m k) st (rbind res f).
Proof.
  unfold computes at 1 3, bind. destruct (m st) as [[r|e] st1].
  - intros [Hext [Hr ->]] Hk. simpl. specialize (Hk r st1 Hr).
    unfold computes in Hk. destruct (k r st1) as [[r'|e'] st2].
    + destruct Hk as [Hext' [Hr' Hres]]. split; [|split]; try assumption.
      eapply extends_trans; eassumption.
    + destruct Hk as [Hext' Hres]. split; [|assumption].
      eapply extends_trans; eassumption.
  - intros [Hext ->] _. simpl. split; [assumption | reflexivity].
Qed.

Lemma categorical_filter_s_computes (sidebar : Sidebar) (col : string) (r : ref) (st : state) :
  (r < List.length (heap st))%nat ->
  computes (categorical_filter_s sidebar col r) st
           (categorical_filter sidebar col (value_of st r)).
Proof.
  intros Hr. unfold computes, categorical_filter_s, categorical_filter, bind, deref, lift, ret.
  fold (value_of st r).
  destruct (contains (columns (value_of st r)) col).
  - destruct (getitem (value_of st r) col) as [s|e]; simpl.
    + destruct (multiselect_with_all sidebar col (unique (dropna s)) true) as [[|v sel]|e];
        simpl.
      * split; [apply extends_refl | split; [assumption | reflexivity]].
      * apply alloc_computes.
      * split; [apply extends_refl | reflexivity].
    + split; [apply extends_refl | reflexivity].
  - split; [apply extends_refl | split; [assumption | reflexivity]].
Qed.

Lemma year_section_computes (sidebar : Sidebar) (r : ref) (st : state) :
  computes
    (bind (deref r) (fun d' =>
     bind (lift (year_bounds d')) (fun bounds =>
     bind (lift (st_slider sidebar "Start year range" (fst bounds) (snd bounds)
                   (fst bounds, snd bounds) 1%Z)) (fun range =>
     bind (lift (year_filter d' (fst range) (snd range)))
          (fun d'' => alloc d'')))))
    st
    (range_section sidebar (value_of st r)).
Proof.
  unfold computes, bind, deref, lift, range_section. fold (value_of st r).
  destruct (year_bounds (value_of st r)) as [b|e]; simpl.
  - destruct (st_slider _ _ _ _ _ _) as [range|e]; simpl.
    + destruct (year_filter _ _ _) as [d|e]; simpl.
      * apply alloc_computes.
      * split; [apply extends_refl | reflexivity].
    + split; [apply extends_refl | reflexivity].
  - split; [apply extends_refl | reflexivity].
Qed.

Lemma alloc_then_computes (d : DataFrame) (k : ref -> M ref) (st : state)
    (res : result DataFrame) :
  (forall r st', (r < List.length (heap st'))%nat -> value_of st' r = d ->
                 computes (k r) st' res) ->
  computes (bind (alloc d) k) st res.
Proof.
  intros Hk. pose proof (alloc_computes d st) as Ha.
  unfold computes in *. unfold bind. destruct (alloc d st) as [[r|e] st1].
  - destruct Ha as [Hext [Hr Hd]]. injection Hd as Hd.
    specialize (Hk r st1 Hr (eq_sym Hd)).
    destruct (k r st1) as [[r'|e'] st2].
    + destruct Hk as [Hext' Hrest]. split; [|assumption].
      eapply extends_trans; eassumption.
    + destruct Hk as [Hext' Hrest]. split; [|assumption].
      eapply extends_trans; eassumption.
  - destruct Ha as [_ Ha]. discriminate.
Qed.

(** The filter section run on the store computes [sidebar_filters] of the
    frame named [df], in new objects. *)
Lemma sidebar_filters_s_computes (sidebar : Sidebar) (df : ref) (st : state) :
  (df < List.length (heap st))%nat ->
  computes (sidebar_filters_s sidebar df) st (sidebar_filters sidebar (value_of st df)).
Proof.
  intros Hdf. unfold sidebar_filters_s, sidebar_filters.
  unfold computes. unfold bind at 1, deref at 1. fold (value_of st df).
  match goal with
  | |- match ?m st with _ => _ end => change (computes m st
        (rbind (categorical_filter sidebar "Plant Type" (copy (value_of st df))) (fun d1 =>
         rbind (categorical_filter sidebar "Technology" d1) (fun d2 =>
         rbind (categorical_filter sidebar "Region" d2) (fun d3 =>
         rbind (categorical_filter sidebar "Subregion" d3) (fun d4 =>
         rbind (categorical_filter sidebar "Country/area" d4) (fun d5 =>
         rbind (categorical_filter sidebar "Status" d5) (fun d6 =>
         range_section sidebar d6))))))))
  end.
  apply alloc_then_computes. intros r0 st0 H0 <-.
  apply computes_bind; [now apply categorical_filter_s_computes|].
  intros r1 st1 H1. apply computes_bind; [now apply categorical_filter_s_computes|].
  intros r2 st2 H2. apply computes_bind; [now apply categorical_filter_s_computes|].
  intros r3 st3 H3. apply computes_bind; [now apply categorical_filter_s_computes|].
  intros r4 st4 H4. apply computes_bind; [now apply categorical_filter_s_computes|].
  intros r5 st5 H5. apply computes_bind; [now apply categorical_filter_s_computes|].
  intros r6 st6 H6. apply year_section_computes.
Qed.

Lemma drawn_bounds (d : DataFrame) (bounds : Z * Z) :
  year_bounds d = Ok bounds -> slider_drawn d -> (fst bounds < snd bounds)%Z.
Proof.
  intros Hb Hd. apply year_bounds_Ok in Hb. unfold slider_drawn in Hd.
  destruct (observed_range d) as [[mn mx]|]; subst bounds; simpl; [assumption | lia].
Qed.

Lemma not_drawn_bounds (d : DataFrame) (bounds : Z * Z) :
  year_bounds d = Ok bounds -> ~ slider_drawn d -> (snd bounds <= fst bounds)%Z.
Proof.
  intros Hb Hd. apply year_bounds_Ok in Hb. unfold slider_drawn in Hd.
  destruct (observed_range d) as [[mn mx]|]; subst bounds; simpl; [lia|].
  exfalso. apply Hd. exact I.
Qed.

Lemma sidebar_filters_total (sidebar : Sidebar) (df d : DataFrame) (i : nat) :
  well_typed df = true ->
  get_loc "Start year" (columns df) = Some i ->
  categorical_filters sidebar categorical_columns df = Ok d ->
  slider_drawn d ->
  exists df', sidebar_filters sidebar df = Ok df'.
Proof.
  intros Hty Hcol Hd Hdrawn. unfold well_typed in Hty.
  apply andb_true_iff in Hty. destruct Hty as [Hcat Hnum].
  rewrite sidebar_filters_unfold, copy_eq. rewrite Hd. simpl.
  apply categorical_filters_shape in Hd. destruct Hd as [Hcols Hsub].
  assert (Hnum' : no_text (column_cells d "Start year") = true).
  { eapply no_text_incl; [|exact Hnum].
    apply column_cells_incl; [assumption | now apply Subseq_incl]. }
  destruct (year_bounds_total _ Hnum') as [b Hb].
  rewrite (range_section_drawn sidebar d b Hb (drawn_bounds _ _ Hb Hdrawn)).
  rewrite <- Hcols in Hcol.
  rewrite (year_filter_rows _ _ _ _ Hcol Hnum'). eexists; reflexivity.
Qed.

(** C7.  Running the filter section on the store, from any state in which
    [df] names a frame: every object of the initial store, [df] among them,
    has the value it had, and the section only adds objects; when the section
    ends normally, the frame it returns has the columns of [df] and its rows
    are a subsequence of the rows of [df], in the same order; and it ends
    normally, with that frame, whenever the section read as a function of the
    frame returns one. *)
Theorem filters_preserve_order_and_input
    (sidebar : Sidebar) (df : ref) (st : state)
    (Hdf : (df < List.length (heap st))%nat) :
  let outcome := sidebar_filters_s sidebar df st in
  (exists new, heap (snd outcome) = heap st ++ new)
  /\ value_of (snd outcome) df = value_of st df
  /\ (forall df_filtered, fst outcome = Ok df_filtered ->
        sidebar_filters sidebar (value_of st df) = Ok (value_of (snd outcome) df_filtered)
        /\ columns (value_of (snd outcome) df_filtered) = columns (value_of st df)
        /\ Subseq (rows (value_of (snd outcome) df_filtered)) (rows (value_of st df)))
  /\ (forall d, sidebar_filters sidebar (value_of st df) = Ok d ->
        exists df_filtered,
          fst outcome = Ok df_filtered /\ value_of (snd outcome) df_filtered = d).
Proof.
  pose proof (sidebar_filters_s_computes sidebar df st Hdf) as H.
  unfold computes in H. simpl.
  destruct (sidebar_filters_s sidebar df st) as [[r|e] st'] eqn:E; simpl.
  - destruct H as [Hext [Hr Hres]].
    split; [apply Hext|]. split; [now apply extends_value_of|]. split.
    + intros r' Hr'. injection Hr' as <-. split; [assumption|].
      now apply sidebar_filters_shape in Hres.
    + intros d Hd. exists r. split; [reflexivity | congruence].
  - destruct H as [Hext Hres].
    split; [apply Hext|]. split; [now apply extends_value_of|]. split.
    + intros r' Hr'. discriminate.
    + intros d Hd. congruence.
Qed.

(** ** The missing-file guard *)

(** C8.  When no file exists at the resolved path, the script shows the
    "not found" message and stops: it ends with [StopException], its log
    holds that message and nothing else (no [read_csv], no table, no chart),
    and no frame has been created in the store. *)
Theorem missing_file_stops_script
    (L : Lib) (os : OS) (sidebar : Sidebar) (np_random : rng L) (st : state)
    (Hmissing : file os (abspath os CSV_PATH) = None) :
  main L os sidebar np_random st =
    (Raise StopException,
     {| heap := heap st;
        log := log st ++ [st_error ("CSV file not found at " ++ abspath os CSV_PATH
                                      ++ ". Check your path.")%string] |}).
Proof.
  unfold main, bind, path_exists. rewrite Hmissing. reflexivity.
Qed.

(** ** The displayed sample *)

(** C9.  When more than 10 rows remain, the frame shown is made of exactly
    10 rows, taken at distinct positions of the filtered frame, and it is the
    same whatever the state of the ambient random generator: two runs on the
    same filtered frame show the same sample. *)
Theorem shown_sample_ten_rows_deterministic
    (L : Lib) (np_random1 np_random2 : rng L) (df_filtered : DataFrame)
    (Hlib : choice_ok L)
    (Hlen : (10 < List.length (rows df_filtered))%nat) :
  shown_sample L np_random1 df_filtered = shown_sample L np_random2 df_filtered
  /\ List.length (rows (shown_sample L np_random1 df_filtered)) = 10%nat
  /\ columns (shown_sample L np_random1 df_filtered) = columns df_filtered
  /\ exists positions,
       NoDup positions
       /\ Forall (fun i => (i < List.length (rows df_filtered))%nat) positions
       /\ rows (shown_sample L np_random1 df_filtered)
          = map (fun i => nth i (rows df_filtered) []) positions.
Proof.
  unfold shown_sample. apply Nat.ltb_lt in Hlen. rewrite Hlen.
  apply Nat.ltb_lt in Hlen.
  destruct (Hlib (RandomState L 42%Z) (List.length (rows df_filtered)) 10%nat)
    as [Hn [Hnd Hrange]]; [lia|].
  unfold sample. simpl. split; [reflexivity|]. split.
  - now rewrite length_map.
  - split; [reflexivity|]. eexists. split; [exact Hnd|]. split; [exact Hrange|reflexivity].
Qed.

(** ** Sorting *)

Section SortFacts.
Context {A : Type} (leb : A -> A -> bool).
Hypothesis leb_total : forall x y, leb x y = true \/ leb y x = true.

Lemma insert_perm (x : A) (l : list A) : Permutation (insert leb x l) (x :: l).
Proof.
  induction l as [|y l IH]; simpl; [reflexivity|].
  destruct (leb x y); [reflexivity|].
  rewrite IH. apply perm_swap.
Qed.

Lemma sort_perm (l : list A) : Permutation (sort leb l) l.
Proof.
  induction l as [|x l IH]; simpl; [reflexivity|].
  rewrite insert_perm. now constructor.
Qed.

Lemma insert_HdRel (a x : A) (l : list A) :
  leb a x = true ->
  HdRel (fun u v => leb u v = true) a l ->
  HdRel (fun u v => leb u v = true) a (insert leb x l).
Proof.
  intros Hax Hal. destruct l as [|y l]; simpl.
  - now constructor.
  - destruct (leb x y); constructor; [assumption|].
    now inversion Hal.
Qed.

Lemma insert_sorted (x : A) (l : list A) :
  Sorted (fun u v => leb u v = true) l ->
  Sorted (fun u v => leb u v = true) (insert leb x l).
Proof.
  induction 1 as [|y l Hs IH Hhd]; simpl.
  - repeat constructor.
  - destruct (leb x y) eqn:E.
    + constructor; [now constructor | now constructor].
    + constructor; [assumption|].
      apply insert_HdRel; [|assumption].
      destruct (leb_total x y) as [H|H]; [congruence | assumption].
Qed.

Lemma sort_sorted (l : list A) : Sorted (fun u v => leb u v = true) (sort leb l).
Proof.
  induction l as [|x l IH]; simpl; [constructor | now apply insert_sorted].
Qed.

End SortFacts.

Lemma sort_In {A : Type} (leb : A -> A -> bool) (l : list A) (x : A) :
  In x (sort leb l) <-> In x l.
Proof.
  split; apply Permutation_in; [apply sort_perm | symmetry; apply sort_perm].
Qed.

(** ** Cells: equality and order *)

Lemma cell_eqb_refl (c : cell) : cell_eqb c c = true.
Proof.
  destruct c; simpl; [apply String.eqb_refl | apply Qeq_bool_refl | reflexivity].
Qed.

Lemma cell_eqb_sym (a b : cell) : cell_eqb a b = cell_eqb b a.
Proof.
  destruct a, b; simpl; try reflexivity; [apply String.eqb_sym | apply Qeq_bool_comm].
Qed.

Lemma cell_eqb_trans (a b c : cell) :
  cell_eqb a b = true -> cell_eqb b c = true -> cell_eqb a c = true.
Proof.
  destruct a, b, c; simpl; try discriminate; try reflexivity.
  - rewrite !String.eqb_eq. congruence.
  - apply Qeq_bool_trans.
Qed.

Lemma cell_eqb_congr (a b c : cell) :
  cell_eqb a b = true -> cell_eqb a c = cell_eqb b c.
Proof.
  intros H. destruct (cell_eqb b c) eqn:E.
  - eapply cell_eqb_trans; eassumption.
  - destruct (cell_eqb a c) eqn:E'; [|reflexivity].
    rewrite cell_eqb_sym in H.
    rewrite (cell_eqb_trans _ _ _ H E') in E. discriminate.
Qed.

Lemma cell_leb_total (a b : cell) : cell_leb a b = true \/ cell_leb b a = true.
Proof.
  destruct a as [x|x|], b as [y|y|]; simpl; auto.
  - apply String.leb_total.
  - destruct (Qlt_le_dec y x) as [H|H].
    + right. apply Qle_bool_iff. now apply Qlt_le_weak.
    + left. now apply Qle_bool_iff.
Qed.

Lemma key_leb_total (a b : cell * Q) : key_leb a b = true \/ key_leb b a = true.
Proof. apply cell_leb_total. Qed.

(** ** Sums *)

Lemma Qsum_app (l1 l2 : list Q) : (Qsum (l1 ++ l2) == Qsum l1 + Qsum l2)%Q.
Proof.
  induction l1 as [|x l1 IH]; simpl.
  - now rewrite Qplus_0_l.
  - rewrite IH. apply Qplus_assoc.
Qed.

Lemma cumsum_from_length (acc : Q) (l : list Q) :
  List.length (cumsum_from acc l) = List.length l.
Proof. revert acc. induction l as [|x l IH]; simpl; intros acc; [reflexivity | now rewrite IH]. Qed.

Lemma cumsum_length (l : list Q) : List.length (cumsum l) = List.length l.
Proof. destruct l; simpl; [reflexivity | now rewrite cumsum_from_length]. Qed.



(** ** Groups *)

Lemma add_to_group_keys (k0 : cell) (v : Q) (groups : list (cell * Q)) :
  map fst (add_to_group k0 v groups) =
    if existsb (same_key k0) groups then map fst groups else map fst groups ++ [k0].
Proof.
  induction groups as [|[k' s] t IH]; simpl; [reflexivity|].
  unfold same_key at 1. simpl. destruct (cell_eqb k' k0); simpl; [reflexivity|].
  rewrite IH. now destruct (existsb (same_key k0) t).
Qed.

Lemma filter_same_key_length (k : cell) (g1 g2 : list (cell * Q)) :
  map fst g1 = map fst g2 ->
  List.length (filter (same_key k) g1) = List.length (filter (same_key k) g2).
Proof.
  revert g2. induction g1 as [|[k1 s1] g1 IH]; intros [|[k2 s2] g2]; simpl;
    try discriminate; [reflexivity|].
  intros H. injection H as -> H. specialize (IH g2 H).
  change (same_key k (k2, s1)) with (cell_eqb k2 k).
  change (same_key k (k2, s2)) with (cell_eqb k2 k).
  destruct (cell_eqb k2 k); simpl; now rewrite IH.
Qed.

Lemma no_same_key (k0 k : cell) (groups : list (cell * Q)) :
  existsb (same_key k0) groups = false ->
  cell_eqb k0 k = true ->
  filter (same_key k) groups = [].
Proof.
  intros Hno Hk. induction groups as [|e t IH]; simpl in *; [reflexivity|].
  apply orb_false_iff in Hno. destruct Hno as [He Ht].
  assert (same_key k e = false) as ->.
  { unfold same_key in *. destruct (cell_eqb (fst e) k) eqn:E; [|reflexivity].
    rewrite cell_eqb_sym in Hk.
    rewrite (cell_eqb_trans _ _ _ E Hk) in He. discriminate. }
  now apply IH.
Qed.

Lemma add_to_group_distinct (k0 : cell) (v : Q) (groups : list (cell * Q)) :
  distinct_keys groups -> distinct_keys (add_to_group k0 v groups).
Proof.
  intros Hd k. pose proof (add_to_group_keys k0 v groups) as Hkeys.
  destruct (existsb (same_key k0) groups) eqn:E.
  - rewrite (filter_same_key_length k _ _ Hkeys). apply Hd.
  - assert (Hk : map fst (add_to_group k0 v groups) = map fst (groups ++ [(k0, v)])).
    { now rewrite Hkeys, map_app. }
    rewrite (filter_same_key_length k _ _ Hk), filter_app, length_app. simpl.
    unfold same_key at 2. simpl. destruct (cell_eqb k0 k) eqn:Ek; simpl.
    + rewrite (no_same_key _ _ _ E Ek). simpl. lia.
    + specialize (Hd k). lia.
Qed.

Lemma add_to_group_total (k0 k : cell) (v : Q) (groups : list (cell * Q)) :
  (Qsum (map snd (filter (same_key k) (add_to_group k0 v groups)))
   == Qsum (map snd (filter (same_key k) groups)) + (if cell_eqb k0 k then v else 0))%Q.
Proof.
  induction groups as [|[k' s] t IH]; simpl.
  - change (same_key k (k0, v)) with (cell_eqb k0 k).
    destruct (cell_eqb k0 k); unfold Qsum; simpl; ring.
  - destruct (cell_eqb k' k0) eqn:E; simpl.
    + change (same_key k (k', (s + v)%Q)) with (cell_eqb k' k).
      change (same_key k (k', s)) with (cell_eqb k' k).
      rewrite <- (cell_eqb_congr _ _ k E).
      destruct (cell_eqb k' k); unfold Qsum; simpl; ring.
    + change (same_key k (k', s)) with (cell_eqb k' k).
      destruct (cell_eqb k' k); simpl; [|exact IH].
      unfold Qsum in *. simpl. rewrite IH. ring.
Qed.

Lemma group_step_distinct (groups : list (cell * Q)) (kv : cell * option Q) :
  distinct_keys groups -> distinct_keys (group_step groups kv).
Proof.
  intros H. unfold group_step. destruct (fst kv); try assumption;
    now apply add_to_group_distinct.
Qed.

Lemma group_step_total (k : cell) (groups : list (cell * Q)) (kv : cell * option Q) :
  notna k = true ->
  (Qsum (map snd (filter (same_key k) (group_step groups kv)))
   == Qsum (map snd (filter (same_key k) groups))
      + (if cell_eqb (fst kv) k then value_or_zero kv else 0))%Q.
Proof.
  intros Hk. unfold group_step, value_or_zero.
  destruct (fst kv) eqn:E; try apply add_to_group_total.
  destruct k; simpl in *; try discriminate; unfold Qsum; ring.
Qed.

Lemma fold_group_step_distinct (kvs : list (cell * option Q)) (groups : list (cell * Q)) :
  distinct_keys groups -> distinct_keys (fold_left group_step kvs groups).
Proof.
  revert groups. induction kvs as [|kv kvs IH]; simpl; intros groups H; [assumption|].
  apply IH. now apply group_step_distinct.
Qed.

Lemma fold_group_step_total (k : cell) (kvs : list (cell * option Q))
    (groups : list (cell * Q)) :
  notna k = true ->
  (Qsum (map snd (filter (same_key k) (fold_left group_step kvs groups)))
   == Qsum (map snd (filter (same_key k) groups))
      + Qsum (map value_or_zero (filter (fun kv => cell_eqb (fst kv) k) kvs)))%Q.
Proof.
  intros Hk. revert groups. induction kvs as [|kv kvs IH]; simpl; intros groups.
  - set (a := Qsum (map snd (filter (same_key k) groups))).
    unfold Qsum. simpl. ring.
  - rewrite IH, (group_step_total _ _ _ Hk).
    set (a := Qsum (map snd (filter (same_key k) groups))).
    destruct (cell_eqb (fst kv) k); simpl; [|ring].
    set (b := map value_or_zero _). unfold Qsum. simpl. ring.
Qed.

(** The keys of the groups: present, and taken from the rows scanned. *)
Lemma group_step_keys (groups : list (cell * Q)) (kv : cell * option Q) :
  map fst (group_step groups kv) = map fst groups
  \/ (notna (fst kv) = true
      /\ existsb (same_key (fst kv)) groups = false
      /\ map fst (group_step groups kv) = map fst groups ++ [fst kv]).
Proof.
  unfold group_step. destruct (fst kv) as [s|q|] eqn:E; [| |now left];
    rewrite add_to_group_keys;
    (destruct (existsb _ groups) eqn:Ex; [left; reflexivity | right; auto]).
Qed.

Lemma fold_group_step_keys (kvs : list (cell * option Q)) (groups : list (cell * Q)) (k : cell) :
  In k (map fst (fold_left group_step kvs groups)) ->
  In k (map fst groups) \/ (notna k = true /\ In k (map fst kvs)).
Proof.
  revert groups. induction kvs as [|kv kvs IH]; simpl; intros groups H; [now left|].
  apply IH in H. destruct H as [H|[H1 H2]]; [|right; split; auto].
  destruct (group_step_keys groups kv) as [E|[Hn [_ E]]]; rewrite E in H.
  - now left.
  - apply in_app_iff in H. destruct H as [H|[<-|[]]]; [now left|].
    right. auto.
Qed.

Lemma group_step_covered (groups : list (cell * Q)) (kv : cell * option Q) (k : cell) :
  existsb (same_key k) groups = true -> existsb (same_key k) (group_step groups kv) = true.
Proof.
  intros H. apply existsb_exists in H. destruct H as [e [He Hk]].
  apply existsb_exists.
  assert (Hin : In (fst e) (map fst (group_step groups kv))).
  { destruct (group_step_keys groups kv) as [E|[_ [_ E]]]; rewrite E.
    - now apply in_map.
    - apply in_app_iff. left. now apply in_map. }
  apply in_map_iff in Hin. destruct Hin as [e' [Hfst He']].
  exists e'. split; [assumption|]. unfold same_key in *. now rewrite Hfst.
Qed.

Lemma group_step_covers (groups : list (cell * Q)) (kv : cell * option Q) :
  notna (fst kv) = true -> existsb (same_key (fst kv)) (group_step groups kv) = true.
Proof.
  intros Hn. destruct (existsb (same_key (fst kv)) groups) eqn:E.
  - now apply group_step_covered.
  - destruct (group_step_keys groups kv) as [Hk|[_ [_ Hk]]].
    + unfold group_step in *. destruct (fst kv) eqn:Ek; try discriminate;
        rewrite add_to_group_keys, E in Hk;
        apply (f_equal (@List.length cell)) in Hk;
        rewrite length_app in Hk; simpl in Hk; lia.
    + apply existsb_exists.
      assert (Hin : In (fst kv) (map fst (group_step groups kv))).
      { rewrite Hk. apply in_app_iff. right. now left. }
      apply in_map_iff in Hin. destruct Hin as [e [Hfst He]].
      exists e. split; [assumption|]. unfold same_key. rewrite Hfst. apply cell_eqb_refl.
Qed.

Lemma fold_group_step_covered (kvs : list (cell * option Q)) (groups : list (cell * Q))
    (k : cell) :
  existsb (same_key k) groups = true ->
  existsb (same_key k) (fold_left group_step kvs groups) = true.
Proof.
  revert groups. induction kvs as [|kv kvs IH]; simpl; intros groups H; [assumption|].
  apply IH. now apply group_step_covered.
Qed.

Lemma fold_group_step_covers (kvs : list (cell * option Q)) (groups : list (cell * Q))
    (kv : cell * option Q) :
  In kv kvs -> notna (fst kv) = true ->
  existsb (same_key (fst kv)) (fold_left group_step kvs groups) = true.
Proof.
  revert groups. induction kvs as [|kv' kvs IH]; simpl; intros groups Hin Hn; [contradiction|].
  destruct Hin as [->|Hin].
  - apply fold_group_step_covered. now apply group_step_covers.
  - now apply IH.
Qed.

Lemma distinct_entry_total (groups : list (cell * Q)) (e : cell * Q) :
  distinct_keys groups -> In e groups ->
  (Qsum (map snd (filter (same_key (fst e)) groups)) == snd e)%Q.
Proof.
  intros Hd Hin. specialize (Hd (fst e)).
  assert (Hf : In e (filter (same_key (fst e)) groups)).
  { apply filter_In. split; [assumption|]. apply cell_eqb_refl. }
  destruct (filter (same_key (fst e)) groups) as [|x [|y l]]; simpl in *.
  - contradiction.
  - destruct Hf as [->|[]]. unfold Qsum. simpl. ring.
  - lia.
Qed.

Lemma filter_perm {A : Type} (p : A -> bool) (l l' : list A) :
  Permutation l l' -> Permutation (filter p l) (filter p l').
Proof.
  induction 1 as [|x l l' H IH|x y l|l1 l2 l3 H1 IH1 H2 IH2]; simpl.
  - constructor.
  - destruct (p x); [now constructor | assumption].
  - destruct (p x), (p y); try reflexivity. apply perm_swap.
  - etransitivity; eassumption.
Qed.

Lemma distinct_keys_perm (g g' : list (cell * Q)) :
  Permutation g g' -> distinct_keys g -> distinct_keys g'.
Proof.
  intros Hp Hd k. rewrite <- (Permutation_length (filter_perm (same_key k) _ _ Hp)).
  apply Hd.
Qed.

Lemma combine_map_rows {A B C : Type} (f : A -> B) (g : A -> C) (l : list A) :
  combine (map f l) (map g l) = map (fun x => (f x, g x)) l.
Proof. induction l as [|x l IH]; simpl; [reflexivity | now rewrite IH]. Qed.

Lemma filter_map_swap {A B : Type} (f : A -> B) (p : B -> bool) (l : list A) :
  filter p (map f l) = map f (filter (fun x => p (f x)) l).
Proof.
  induction l as [|x l IH]; simpl; [reflexivity|].
  destruct (p (f x)); simpl; now rewrite IH.
Qed.

(** What [groupby(by)[col].sum()] returns on a frame whose column [col] is
    numeric: groups sorted by key, one per key present in the rows, each with
    the sum of the capacities of its rows. *)
Lemma groupby_sum_spec (df : DataFrame) (by_ col : string) (i j : nat) :
  get_loc by_ (columns df) = Some i ->
  get_loc col (columns df) = Some j ->
  no_text (column_cells df col) = true ->
  exists g,
    groupby_sum df by_ col = Ok g
    /\ Sorted (fun a b => key_leb a b = true) g
    /\ distinct_keys g
    /\ (forall e, In e g ->
          notna (fst e) = true
          /\ (exists r, In r (rows df) /\ iat i r = fst e)
          /\ (snd e == group_total i j (fst e) (rows df))%Q)
    /\ (forall r, In r (rows df) -> notna (iat i r) = true ->
          exists e, In e g /\ cell_eqb (fst e) (iat i r) = true).
Proof.
  intros Hi Hj Hnum. unfold groupby_sum.
  rewrite (column_cells_at _ _ _ Hj) in Hnum.
  rewrite (getitem_at _ _ _ Hi), (getitem_at _ _ _ Hj). simpl.
  rewrite (floats_total _ Hnum). simpl. rewrite map_map, combine_map_rows.
  set (f := fun r : list cell => (iat i r, num_of (iat j r))).
  set (G := fold_left group_step (map f (rows df)) []).
  assert (HdG : distinct_keys G).
  { apply fold_group_step_distinct. intros k. simpl. lia. }
  eexists. split; [reflexivity|]. split; [apply sort_sorted, key_leb_total|].
  split; [eapply distinct_keys_perm; [symmetry; apply sort_perm | exact HdG]|].
  split.
  - intros e He. apply sort_In in He.
    assert (Hk : In (fst e) (map fst G)) by now apply in_map.
    apply fold_group_step_keys in Hk. destruct Hk as [[]|[Hn Hk]].
    split; [assumption|]. split.
    + rewrite map_map in Hk. apply in_map_iff in Hk.
      destruct Hk as [r [Hr Hin]]. exists r. auto.
    + rewrite <- (distinct_entry_total _ _ HdG He).
      unfold G. rewrite (fold_group_step_total _ _ _ Hn). simpl.
      rewrite filter_map_swap, map_map. unfold group_total, rows_of_group.
      unfold Qsum at 1. simpl. rewrite Qplus_0_l. reflexivity.
  - intros r Hr Hn.
    assert (Hc : existsb (same_key (iat i r)) G = true).
    { apply (fold_group_step_covers (map f (rows df)) [] (f r));
        [now apply in_map | assumption]. }
    apply existsb_exists in Hc. destruct Hc as [e [He Hk]].
    exists e. split; [now apply sort_In | assumption].
Qed.

(** ** Capacity by status *)


(** ** Capacities on which the arithmetic is exact *)

Lemma multiple_of_125_spec (q : Q) :
  multiple_of_125 q = true -> exists z, (q == inject_Z (125 * z))%Q.
Proof.
  unfold multiple_of_125. intros H. apply andb_true_iff in H. destruct H as [Hd Hn].
  apply Pos.eqb_eq in Hd. apply Z.eqb_eq in Hn.
  exists (Qnum (Qred q) / 125)%Z.
  rewrite <- (Z_div_exact_full_2 (Qnum (Qred q)) 125); [|lia|assumption].
  rewrite <- (Qred_correct q) at 1.
  destruct (Qred q) as [n d]. simpl in *. subst d. reflexivity.
Qed.

Lemma Qabs_inject_Z (z : Z) : Qabs (inject_Z z) = inject_Z (Z.abs z).
Proof. reflexivity. Qed.

Lemma multiples_sum (j : nat) (rs : list (list cell)) :
  Forall (fun r => multiple_of_125 (capacity_at j r) = true) rs ->
  exists z, (Qsum (map (capacity_at j) rs) == inject_Z (125 * z))%Q
            /\ (inject_Z (125 * Z.abs z)
                <= Qsum (map (fun r => Qabs (capacity_at j r)) rs))%Q.
Proof.
  induction 1 as [|r rs Hr Hrs [z [Hz Hb]]].
  - exists 0%Z. split; [reflexivity | apply Qle_refl].
  - apply multiple_of_125_spec in Hr. destruct Hr as [z1 Hz1].
    exists (z1 + z)%Z. unfold Qsum in *. cbn [map fold_right]. split.
    + rewrite Hz1, Hz, <- inject_Z_plus. now rewrite <- Z.mul_add_distr_l.
    + rewrite Hz1, Qabs_inject_Z.
      eapply Qle_trans; [|apply Qplus_le_r; exact Hb].
      rewrite <- inject_Z_plus, <- Zle_Qle. lia.
Qed.

Lemma Qsum_Subseq {A : Type} (f : A -> Q) (sub l : list A) :
  (forall x, 0 <= f x)%Q -> Subseq sub l -> (Qsum (map f sub) <= Qsum (map f l))%Q.
Proof.
  intros Hf. induction 1 as [|x l1 l2 H IH|x l1 l2 H IH]; unfold Qsum in *; simpl.
  - apply Qle_refl.
  - now apply Qplus_le_r.
  - eapply Qle_trans; [exact IH|].
    rewrite <- (Qplus_0_l (fold_right Qplus 0 (map f l2))) at 1.
    apply Qplus_le_l. apply Hf.
Qed.

(** On exact capacities, the capacities of any rows picked from the frame
    add up to a float64 number, and so does the sum divided by 1000: no sum
    that the script forms, whichever rows it has reached, and no total in GW,
    is rounded. *)
Lemma exact_partial_sums (j : nat) (rs sub : list (list cell)) :
  exact_capacities j rs = true ->
  Subseq sub rs ->
  binary64 (Qsum (map (capacity_at j) sub))
  /\ binary64 (Qsum (map (capacity_at j) sub) / 1000).
Proof.
  unfold exact_capacities. intros H Hsub.
  apply andb_true_iff in H. destruct H as [Hall Hbound].
  rewrite forallb_forall in Hall. apply Qle_bool_iff in Hbound.
  destruct (multiples_sum j sub) as [z [Hz Hb]].
  { apply Forall_forall. intros r Hr. apply Hall. now apply (Subseq_incl _ _ Hsub). }
  assert (Hz53 : (125 * Z.abs z <= 2 ^ 53 - 1)%Z).
  { rewrite Zle_Qle. eapply Qle_trans; [exact Hb|].
    eapply Qle_trans; [|exact Hbound].
    apply Qsum_Subseq; [intros x; apply Qabs_nonneg | exact Hsub]. }
  split.
  - exists (125 * z)%Z, 0%Z. split; [lia|]. split; [lia|].
    rewrite Hz. simpl. now rewrite Qmult_1_r.
  - exists z, (-3)%Z. split; [lia|]. split; [lia|].
    rewrite Hz, inject_Z_mult.
    change (Qpower 2 (-3)) with (1 # 8)%Q. change (inject_Z 125) with 125%Q. field.
Qed.

Lemma cap_by_status_spec (df : DataFrame) (i j : nat) :
  get_loc "Status" (columns df) = Some i ->
  get_loc "installed capacity MW" (columns df) = Some j ->
  no_text (column_cells df "installed capacity MW") = true ->
  exists t,
    cap_by_status df = Ok t
    /\ (forall a, In a t ->
          Status a <> NaN
          /\ (exists r, In r (rows df) /\ iat i r = Status a)
          /\ (TotalCapacityMW a == group_total i j (Status a) (rows df))%Q
          /\ TotalCapacityGW a = (TotalCapacityMW a / 1000)%Q)
    /\ (forall r, In r (rows df) -> iat i r <> NaN ->
          exists a, In a t /\ cell_eqb (Status a) (iat i r) = true)
    /\ (forall k, (List.length (filter (fun a => cell_eqb (Status a) k) t) <= 1)%nat).
Proof.
  intros Hi Hj Hnum. unfold cap_by_status.
  destruct (groupby_sum_spec df _ _ i j Hi Hj Hnum) as [g [-> [_ [Hd [Hg Hcov]]]]].
  simpl. eexists. split; [reflexivity|]. split; [|split].
  - intros a Ha. apply in_map_iff in Ha. destruct Ha as [e [<- He]]. simpl.
    destruct (Hg e He) as [Hn [Hr Hs]].
    split; [intros E; rewrite E in Hn; discriminate|]. auto.
  - intros r Hr Hn. destruct (Hcov r Hr) as [e [He Hk]].
    { now destruct (iat i r). }
    eexists. split; [apply in_map, He | exact Hk].
  - intros k. specialize (Hd k).
    assert (E : List.length (filter (fun a => cell_eqb (Status a) k)
                  (map (fun kv => {| Status := fst kv; TotalCapacityMW := snd kv;
                                     TotalCapacityGW := (snd kv / 1000)%Q |}) g))
                = List.length (filter (same_key k) g)).
    { rewrite filter_map_swap, length_map. reflexivity. }
    rewrite E. exact Hd.
Qed.


Lemma filter_of_filter {A : Type} (p q : A -> bool) (l : list A) :
  (forall x, p x = true -> q x = true) -> filter p (filter q l) = filter p l.
Proof.
  intros H. induction l as [|x l IH]; simpl; [reflexivity|].
  destruct (q x) eqn:Eq; simpl.
  - now rewrite IH.
  - destruct (p x) eqn:Ep; [|assumption]. apply H in Ep. congruence.
Qed.



(** ** Capacity by year *)

Lemma dropna_subset_complete (df : DataFrame) (i j : nat) :
  get_loc "Start year" (columns df) = Some i ->
  get_loc "installed capacity MW" (columns df) = Some j ->
  dropna_subset df ["Start year"; "installed capacity MW"]%string =
    Ok {| columns := columns df; rows := complete_rows i j (rows df) |}.
Proof.
  intros Hi Hj. unfold dropna_subset. simpl. rewrite Hi, Hj. simpl.
  do 2 f_equal. apply filter_ext. intros r. now rewrite andb_true_r.
Qed.

Lemma map_fst_combine {A B : Type} (l : list A) (l' : list B) :
  List.length l = List.length l' -> map fst (combine l l') = l.
Proof.
  revert l'. induction l as [|x l IH]; intros [|y l']; simpl; try discriminate;
    [reflexivity|].
  intros H. injection H as H. now rewrite IH.
Qed.

Lemma map_snd_combine {A B : Type} (l : list A) (l' : list B) :
  List.length l = List.length l' -> map snd (combine l l') = l'.
Proof.
  revert l'. induction l as [|x l IH]; intros [|y l']; simpl; try discriminate;
    [reflexivity|].
  intros H. injection H as H. now rewrite IH.
Qed.

Lemma Sorted_map {A B : Type} (R : B -> B -> Prop) (f : A -> B) (l : list A) :
  Sorted (fun a b => R (f a) (f b)) l -> Sorted R (map f l).
Proof.
  induction 1 as [|x l Hs IH Hhd]; simpl; constructor; [assumption|].
  destruct Hhd; simpl; constructor; assumption.
Qed.






(** ** The frame without a [Start year] column *)

Lemma sidebar_filters_without_start_year (sidebar : Sidebar) (df : DataFrame) :
  get_loc "Start year" (columns df) = None ->
  forallb (fun col => one_kind (column_cells df col)) categorical_columns = true ->
  sidebar_filters sidebar df = Raise (KeyError "Start year").
Proof.
  intros Hcol Hcat. rewrite sidebar_filters_unfold, copy_eq.
  destruct (categorical_filters_total sidebar _ _ Hcat) as [d Hd]. rewrite Hd. simpl.
  apply categorical_filters_shape in Hd. destruct Hd as [Hcols _].
  rewrite <- Hcols in Hcol.
  assert (Hb : year_bounds d = Ok (1900, 2100)%Z).
  { unfold year_bounds. now rewrite (proj2 (contains_false_get_loc _ _) Hcol). }
  rewrite (range_section_drawn sidebar d _ Hb); [|simpl; lia].
  now apply year_filter_absent.
Qed.

(** C2, at the failing input.  On the table with the columns [Status] and
    [installed capacity MW] only, with every widget left as offered, the
    categorical blocks of the absent columns are skipped, and the range
    filter then raises [KeyError]: the filter section, and the script run on
    a file holding that table, end with that exception, after the "loaded"
    messages and before any table or chart is shown. *)
Theorem absent_start_year_raises_KeyError :
  contains (columns status_scenario) "Start year" = false
  /\ categorical_filter untouched "Region" status_scenario = Ok status_scenario
  /\ sidebar_filters untouched status_scenario = Raise (KeyError "Start year")
  /\ fst (main toy_lib (with_table status_scenario) untouched 0%nat initial_state)
     = Raise (KeyError "Start year")
  /\ log (snd (main toy_lib (with_table status_scenario) untouched 0%nat initial_state))
     = [read_csv ("/srv/" ++ CSV_PATH)%string;
        st_success "Data loaded successfully!";
        st_write_shape 3 ["Status"; "installed capacity MW"]%string].
Proof. repeat split; vm_compute; reflexivity. Qed.

(** ** Concrete runs *)

(** C1, as stated, fails.  The user keeps "All" in every multiselect and
    sets the slider to 2000-2003, the full range of the start years observed
    in [plants]; the filter section returns five of the six rows: the plant
    without a start year is gone. *)
Lemma full_range_drops_row_without_start_year :
  well_typed plants = true
  /\ no_filter (all_with_range (2000, 2003)%Z)
  /\ slides (all_with_range (2000, 2003)%Z) 2000 2003
  /\ observed_range plants = Some (inject_Z 2000, inject_Z 2003)
  /\ In [Str "gas"; Str "operating"; NaN; Num 2000] (rows plants)
  /\ (exists df',
        sidebar_filters (all_with_range (2000, 2003)%Z) plants = Ok df'
        /\ ~ In [Str "gas"; Str "operating"; NaN; Num 2000] (rows df')
        /\ List.length (rows df') = 5%nat
        /\ List.length (rows plants) = 6%nat)
  /\ sidebar_filters (all_with_range (2000, 2003)%Z) plants <> Ok plants.
Proof.
  split; [reflexivity|].
  split; [intros label extended default_sel; right; reflexivity|].
  split; [intros label mn mx value step; reflexivity|].
  split; [reflexivity|].
  split; [simpl; tauto|].
  split.
  - eexists. split; [vm_compute; reflexivity|]. split; [|split; reflexivity].
    simpl. intros H. repeat destruct H as [H|H]; try discriminate H. exact H.
  - vm_compute. discriminate.
Qed.

Lemma toy_lib_ok : choice_ok toy_lib.
Proof.
  intros g N n Hn. simpl. destruct (Nat.even g).
  - split; [apply length_seq|]. split; [apply seq_NoDup|].
    apply Forall_forall. intros i Hi. apply in_seq in Hi. lia.
  - split; [apply length_seq|]. split; [apply seq_NoDup|].
    apply Forall_forall. intros i Hi. apply in_seq in Hi. lia.
Qed.

(** The scenario of the year aggregate: 500 MW and 500 MW in 2000, 1000 MW
    in 2001. *)
Example df_year_scenario :
  exists a b,
    df_year {| columns := ["Start year"; "installed capacity MW"]%string;
               rows := [ [Num 2000; Num 500]; [Num 2000; Num 500]; [Num 2001; Num 1000] ] |}
    = Ok [a; b]
    /\ Year a = Num 2000 /\ (NewCapGW a == 1)%Q /\ (CumulativeCapGW a == 1)%Q
    /\ Year b = Num 2001 /\ (NewCapGW b == 1)%Q /\ (CumulativeCapGW b == 2)%Q.
Proof.
  eexists. eexists. split; [vm_compute; reflexivity|]. simpl. repeat split.
Qed.

Lemma no_filter_keeps_rows_with_start_year_witness :
  sidebar_filters (all_with_range (2000, 2003)%Z) plants =
    Ok {| columns := columns plants;
          rows := filter (fun r => notna (iat 2 r)) (rows plants) |}
  /\ (forallb (fun r => notna (iat 2 r)) (rows plants) = true ->
      sidebar_filters (all_with_range (2000, 2003)%Z) plants = Ok plants).
Proof.
  apply (no_filter_keeps_rows_with_start_year
           (all_with_range (2000, 2003)%Z) plants 2 2000 2003
           (inject_Z 2000) (inject_Z 2003)).
  - reflexivity.
  - reflexivity.
  - intros label extended default_sel. right. reflexivity.
  - intros label mn mx value step. reflexivity.
  - reflexivity.
  - reflexivity.
  - reflexivity.
  - reflexivity.
Defined.

Lemma year_filter_keeps_present_in_range_witness :
  exists df',
    year_filter plants 1900 2100 = Ok df'
    /\ columns df' = columns plants
    /\ rows df' = filter (fun r => year_passes 1900 2100 (iat 2 r)) (rows plants)
    /\ (forall r, In r (rows df') <->
          In r (rows plants)
          /\ exists q, iat 2 r = Num q /\ (inject_Z 1900 <= q)%Q /\ (q <= inject_Z 2100)%Q)
    /\ (forall r, In r (rows df') -> iat 2 r <> NaN).
Proof.
  apply (year_filter_keeps_present_in_range plants 1900 2100 2).
  - reflexivity.
  - reflexivity.
Defined.

Lemma selected_values_only_witness :
  Forall (fun r => (exists v, In v [Str "operating"] /\ cell_eqb (iat 1 r) v = true)
                   /\ iat 1 r <> NaN)
         [ [Str "coal"; Str "operating"; Num 2000; Num 500];
           [Str "solar"; Str "operating"; Num 2001; Num 1000] ].
Proof.
  apply (selected_values_only
           (selecting "Status" [Str "operating"]) plants
           {| columns := columns plants;
              rows := [ [Str "coal"; Str "operating"; Num 2000; Num 500];
                        [Str "solar"; Str "operating"; Num 2001; Num 1000] ] |}
           "Status" [Str "operating"] 1).
  - simpl. tauto.
  - reflexivity.
  - intros extended default_sel. reflexivity.
  - discriminate.
  - reflexivity.
  - repeat constructor.
  - vm_compute. reflexivity.
Defined.



Lemma filters_preserve_order_and_input_witness :
  let outcome := sidebar_filters_s untouched 0%nat plants_loaded in
  (exists new, heap (snd outcome) = heap plants_loaded ++ new)
  /\ value_of (snd outcome) 0%nat = value_of plants_loaded 0%nat
  /\ (forall df_filtered, fst outcome = Ok df_filtered ->
        sidebar_filters untouched (value_of plants_loaded 0%nat)
        = Ok (value_of (snd outcome) df_filtered)
        /\ columns (value_of (snd outcome) df_filtered)
           = columns (value_of plants_loaded 0%nat)
        /\ Subseq (rows (value_of (snd outcome) df_filtered))
                  (rows (value_of plants_loaded 0%nat)))
  /\ (forall d, sidebar_filters untouched (value_of plants_loaded 0%nat) = Ok d ->
        exists df_filtered,
          fst outcome = Ok df_filtered /\ value_of (snd outcome) df_filtered = d).
Proof.
  apply (filters_preserve_order_and_input untouched 0%nat plants_loaded).
  simpl. lia.
Defined.

Lemma missing_file_stops_script_witness :
  main toy_lib no_files untouched 0%nat initial_state =
    (Raise StopException,
     {| heap := [];
        log := [st_error ("CSV file not found at " ++ abspath no_files CSV_PATH
                            ++ ". Check your path.")%string] |}).
Proof.
  apply (missing_file_stops_script toy_lib no_files untouched 0%nat initial_state).
  reflexivity.
Defined.

Lemma shown_sample_ten_rows_deterministic_witness :
  shown_sample toy_lib 0%nat fifteen_years = shown_sample toy_lib 1%nat fifteen_years
  /\ List.length (rows (shown_sample toy_lib 0%nat fifteen_years)) = 10%nat
  /\ columns (shown_sample toy_lib 0%nat fifteen_years) = columns fifteen_years
  /\ exists positions,
       NoDup positions
       /\ Forall (fun i => (i < List.length (rows fifteen_years))%nat) positions
       /\ rows (shown_sample toy_lib 0%nat fifteen_years)
          = map (fun i => nth i (rows fifteen_years) []) positions.
Proof.
  apply (shown_sample_ten_rows_deterministic toy_lib 0%nat 1%nat fifteen_years).
  - exact toy_lib_ok.
  - simpl. lia.
Defined.


(** ** [load_data] leaves the numeric columns without text *)

Lemma iat_set_iat (i k : nat) (c : cell) (r : list cell) :
  iat k (set_iat i c r) = if Nat.eqb k i then c else iat k r.
Proof.
  unfold iat. revert k r. induction i as [|i IH]; intros k r.
  - destruct r, k as [|k]; simpl; try reflexivity. now destruct k.
  - destruct r as [|x r], k as [|k]; simpl; try reflexivity.
    + rewrite IH. destruct (Nat.eqb k i); [reflexivity | now destruct k].
    + apply IH.
Qed.

Lemma coerce_not_text (L : Lib) (c : cell) : is_str (coerce L c) = false.
Proof. destruct c as [x|q|]; simpl; [destruct (str_to_float L x)|..]; reflexivity. Qed.

Lemma coerce_column_columns (L : Lib) (col : string) (d : DataFrame) :
  columns (coerce_column L col d) = columns d.
Proof. unfold coerce_column. now destruct (get_loc col (columns d)). Qed.

Lemma coerce_column_keeps_no_text (L : Lib) (col c : string) (d : DataFrame) :
  no_text (column_cells d c) = true ->
  no_text (column_cells (coerce_column L col d) c) = true.
Proof.
  intros H. unfold coerce_column.
  destruct (get_loc col (columns d)) as [i|] eqn:Hi; [|assumption].
  unfold column_cells, getitem in *. simpl.
  destruct (get_loc c (columns d)) as [k|]; [|reflexivity].
  unfold no_text in *. rewrite forallb_forall in *. intros x Hx.
  rewrite map_map in Hx. apply in_map_iff in Hx. destruct Hx as [r [<- Hr]].
  rewrite iat_set_iat. destruct (Nat.eqb k i).
  - now rewrite coerce_not_text.
  - apply H. now apply in_map.
Qed.

Lemma coerce_column_no_text (L : Lib) (col : string) (d : DataFrame) :
  no_text (column_cells (coerce_column L col d) col) = true.
Proof.
  unfold coerce_column.
  destruct (get_loc col (columns d)) as [i|] eqn:Hi.
  - unfold column_cells, getitem. simpl. rewrite Hi.
    unfold no_text. rewrite forallb_forall. intros x Hx.
    rewrite map_map in Hx. apply in_map_iff in Hx. destruct Hx as [r [<- Hr]].
    rewrite iat_set_iat, Nat.eqb_refl. now rewrite coerce_not_text.
  - unfold column_cells, getitem. now rewrite Hi.
Qed.

Lemma update_last {A : Type} (h : list A) (x y : A) :
  update (List.length h) y (h ++ [x]) = h ++ [y].
Proof. induction h as [|a h IH]; simpl; [reflexivity | now rewrite IH]. Qed.

Lemma combine_with_map {A B : Type} (g : A -> B) (l : list A) :
  combine l (map g l) = map (fun x => (x, g x)) l.
Proof. induction l as [|x l IH]; simpl; [reflexivity | now rewrite IH]. Qed.

(** One turn of the loop of [load_data] on the frame it has just read. *)
Lemma coerce_step (L : Lib) (col : string) (h : list DataFrame) (d : DataFrame)
    (lg : list event) :
  bind (deref (List.length h)) (fun d0 =>
    if contains (columns d0) col
    then bind (lift (getitem d0 col)) (fun s => setitem (List.length h) col (to_numeric L s))
    else ret tt)
    {| heap := h ++ [d]; log := lg |}
  = (Ok tt, {| heap := h ++ [coerce_column L col d]; log := lg |}).
Proof.
  unfold setitem, assign, coerce_column. unfold bind at 1, deref at 1. simpl.
  rewrite nth_middle. unfold lift, ret.
  destruct (contains (columns d) col) eqn:Hc.
  - apply contains_get_loc in Hc. destruct Hc as [i Hi].
    rewrite (getitem_at _ _ _ Hi), Hi. simpl. unfold bind, deref. simpl.
    rewrite nth_middle, Hi. simpl.
    rewrite update_last. unfold to_numeric.
    rewrite map_map, combine_with_map, map_map. reflexivity.
  - apply contains_false_get_loc in Hc. now rewrite Hc.
Qed.

(** [load_data] on an existing file: it logs the read, creates one object,
    the table of the file with its numeric columns coerced, and in that
    object none of the three numeric columns holds a text. *)
Lemma load_data_numeric (L : Lib) (os : OS) (path : string) (table : DataFrame) (st : state) :
  file os path = Some table ->
  let loaded :=
    coerce_column L "installed capacity MW"
      (coerce_column L "Retired year" (coerce_column L "Start year" table)) in
  load_data L os path st =
    (Ok (List.length (heap st)),
     {| heap := heap st ++ [loaded]; log := log st ++ [read_csv path] |})
  /\ columns loaded = columns table
  /\ Forall (fun col => no_text (column_cells loaded col) = true) numeric_columns.
Proof.
  intros Hfile loaded. split; [|split].
  - unfold load_data. unfold bind at 1, emit at 1. simpl. rewrite Hfile.
    unfold bind at 1, alloc at 1. simpl.
    unfold for_each.
    unfold bind at 1. unfold bind at 1. rewrite coerce_step.
    unfold bind at 1. rewrite coerce_step.
    unfold bind at 1. rewrite coerce_step.
    reflexivity.
  - unfold loaded. now rewrite !coerce_column_columns.
  - unfold loaded, numeric_columns. repeat constructor.
    + do 2 apply coerce_column_keeps_no_text. apply coerce_column_no_text.
    + apply coerce_column_keeps_no_text. apply coerce_column_no_text.
    + apply coerce_column_no_text.
Qed.

(** * Further properties of the script *)

(** ** The bounds of the year slider *)

(** X1.  Whenever the bounds of the year slider are computed, they are the
    start years' minimum and maximum, truncated toward zero, or 1900 and 2100
    when the frame has no start year at all (no such column, or no value in
    it); in both cases the lower bound does not exceed the upper one. *)
Theorem year_bounds_are_ordered
    (d : DataFrame) (min_year max_year : Z)
    (Hrun : year_bounds d = Ok (min_year, max_year)) :
  (min_year <= max_year)%Z
  /\ (min_year, max_year) = match observed_range d with
                            | Some (mn, mx) => (int mn, int mx)
                            | None => (1900, 2100)%Z
                            end.
Proof.
  apply year_bounds_Ok in Hrun. split; [|assumption].
  unfold observed_range in Hrun. destruct (observed_years d) as [|y ys].
  - injection Hrun as -> ->. lia.
  - injection Hrun as -> ->. apply int_le, Qmin_le_Qmax.
Qed.

Lemma year_bounds_are_ordered_witness :
  (2000 <= 2003)%Z
  /\ (2000, 2003)%Z = match observed_range plants with
                      | Some (mn, mx) => (int mn, int mx)
                      | None => (1900, 2100)%Z
                      end.
Proof.
  apply (year_bounds_are_ordered plants 2000 2003). reflexivity.
Defined.

(** ** The page on first load: every widget as offered *)

Lemma categorical_filter_defaults (sidebar : Sidebar) (col : string) (d : DataFrame) :
  leaves_defaults sidebar ->
  one_kind (column_cells d col) = true ->
  categorical_filter sidebar col d = Ok d.
Proof.
  intros [Hm _] Hk. unfold categorical_filter.
  destruct (contains (columns d) col) eqn:Hc; [|reflexivity].
  apply contains_get_loc in Hc. destruct Hc as [i Hi].
  rewrite (column_cells_at _ _ _ Hi) in Hk.
  rewrite (getitem_at _ _ _ Hi). simpl. unfold multiselect_with_all.
  rewrite (sorted_total _ (options_one_kind _ Hk)). simpl.
  rewrite Hm. reflexivity.
Qed.

Lemma categorical_filters_defaults (sidebar : Sidebar) (cols : list string) (d : DataFrame) :
  leaves_defaults sidebar ->
  forallb (fun col => one_kind (column_cells d col)) cols = true ->
  categorical_filters sidebar cols d = Ok d.
Proof.
  intros Hdef. induction cols as [|c cols IH]; simpl; intros H; [reflexivity|].
  apply andb_true_iff in H. destruct H as [Hc Hcols].
  rewrite (categorical_filter_defaults _ _ _ Hdef Hc). simpl. now apply IH.
Qed.

Lemma Qmin_list_In (l : list Q) (x : Q) : In (Qmin_list x l) (x :: l).
Proof.
  revert x. induction l as [|y l IH]; simpl; intros x; [now left|].
  destruct (Qle_bool y x).
  - right. apply IH.
  - destruct (IH x) as [H|H]; [now left | right; now right].
Qed.

Lemma Qmax_list_In (l : list Q) (x : Q) : In (Qmax_list x l) (x :: l).
Proof.
  revert x. induction l as [|y l IH]; simpl; intros x; [now left|].
  destruct (Qle_bool x y).
  - right. apply IH.
  - destruct (IH x) as [H|H]; [now left | right; now right].
Qed.

Lemma whole_number_int (q : Q) : whole_number q -> (inject_Z (int q) == q)%Q.
Proof.
  intros [z Hz]. rewrite (int_comp _ _ Hz), int_inject_Z. now symmetry.
Qed.

(** X2.  On first load, with every widget left as offered, the filter section
    returns exactly the rows that have a start year, in order, provided the
    start years present are whole numbers, so that the slider spans them all,
    and are not all the same, so that the slider can be drawn.  (The frame is
    typed and has the [Start year] column.) *)
Theorem first_load_keeps_rows_with_start_year
    (sidebar : Sidebar) (df : DataFrame) (i : nat)
    (Hdef : leaves_defaults sidebar)
    (Hty : well_typed df = true)
    (Hcol : get_loc "Start year" (columns df) = Some i)
    (Hwhole : Forall whole_number (observed_years df))
    (Hdrawn : slider_drawn df) :
  sidebar_filters sidebar df =
    Ok {| columns := columns df;
          rows := filter (fun r => notna (iat i r)) (rows df) |}.
Proof.
  unfold well_typed in Hty. apply andb_true_iff in Hty. destruct Hty as [Hcat Hnum].
  rewrite sidebar_filters_unfold, copy_eq.
  rewrite (categorical_filters_defaults _ _ _ Hdef Hcat). simpl.
  destruct (year_bounds_total _ Hnum) as [b Hb].
  rewrite (range_section_drawn sidebar df b Hb (drawn_bounds _ _ Hb Hdrawn)).
  destruct Hdef as [_ Hs]. rewrite Hs. simpl.
  rewrite (year_filter_rows _ _ _ _ Hcol Hnum). do 2 f_equal.
  apply filter_ext_in. intros r Hr.
  assert (Hc : In (iat i r) (column_cells df "Start year")).
  { rewrite (column_cells_at _ _ _ Hcol). now apply in_map. }
  pose proof (no_text_In _ _ Hnum Hc) as Hstr.
  destruct (iat i r) as [s|q|] eqn:E; simpl in *; try discriminate; try reflexivity.
  assert (Hq : In q (observed_years df)).
  { unfold observed_years. apply somes_In. change (Some q) with (num_of (Num q)).
    now apply in_map. }
  apply year_bounds_Ok in Hb. unfold observed_range in Hb.
  destruct (observed_years df) as [|y ys] eqn:Hobs; [contradiction|]. subst b. simpl.
  rewrite Forall_forall in Hwhole.
  rewrite (whole_number_int _ (Hwhole _ (Qmin_list_In ys y))).
  rewrite (whole_number_int _ (Hwhole _ (Qmax_list_In ys y))).
  destruct (Qmin_list_le ys y) as [H1 H2], (Qmax_list_ge ys y) as [H3 H4].
  apply andb_true_iff. rewrite !Qle_bool_iff.
  destruct Hq as [<-|Hq]; auto.
Qed.

Lemma first_load_keeps_rows_with_start_year_witness :
  sidebar_filters untouched plants =
    Ok {| columns := columns plants;
          rows := filter (fun r => notna (iat 2 r)) (rows plants) |}.
Proof.
  apply (first_load_keeps_rows_with_start_year untouched plants 2).
  - split; reflexivity.
  - reflexivity.
  - reflexivity.
  - repeat constructor; [exists 2000%Z | exists 2000%Z | exists 2001%Z
                         | exists 2001%Z | exists 2003%Z]; reflexivity.
  - reflexivity.
Defined.

(** Why X2 asks for whole numbers: the bounds are truncated, so a start year
    of 2001.5 lies above the upper bound offered, 2001, and the untouched
    slider excludes its row. *)
Example fractional_year_is_outside_default_range :
  sidebar_filters untouched
    {| columns := ["Start year"]%string;
       rows := [ [Num 2000]; [Num (4003 # 2)] ] |}
  = Ok {| columns := ["Start year"]%string; rows := [ [Num 2000] ] |}.
Proof. reflexivity. Qed.

(** ** The filter section as one test per row *)

Lemma filter_and {A : Type} (p q : A -> bool) (l : list A) :
  filter q (filter p l) = filter (fun x => p x && q x) l.
Proof.
  induction l as [|x l IH]; simpl; [reflexivity|].
  destruct (p x); simpl; [destruct (q x)|]; now rewrite IH.
Qed.

Lemma filter_true {A : Type} (l : list A) : filter (fun _ => true) l = l.
Proof. induction l as [|x l IH]; simpl; [reflexivity | now rewrite IH]. Qed.

Lemma categorical_filter_answers (sidebar : Sidebar) (sel : string -> list cell)
    (range : Z * Z) (col : string) (d : DataFrame) :
  answers sidebar sel range ->
  one_kind (column_cells d col) = true ->
  categorical_filter sidebar col d =
    Ok {| columns := columns d;
          rows := filter (passes_column (columns d) sel col) (rows d) |}.
Proof.
  intros [Hm _] Hk. unfold categorical_filter, passes_column.
  destruct (contains (columns d) col) eqn:Hc.
  - apply contains_get_loc in Hc. destruct Hc as [i Hi].
    rewrite (column_cells_at _ _ _ Hi) in Hk.
    rewrite (getitem_at _ _ _ Hi), Hi. simpl. unfold multiselect_with_all.
    rewrite (sorted_total _ (options_one_kind _ Hk)). simpl. rewrite Hm.
    unfold filters_on.
    destruct (sel col) as [|v chosen] eqn:Hsel.
    + simpl. rewrite filter_true. now destruct d.
    + destruct (existsb (cell_eqb (Str ALL)) (v :: chosen)) eqn:Hall; simpl.
      * rewrite filter_true. now destruct d.
      * unfold getitem_mask, isin. f_equal. f_equal. apply select_map_filter_on.
  - apply contains_false_get_loc in Hc. rewrite Hc, filter_true. now destruct d.
Qed.

Lemma categorical_filters_answers (sidebar : Sidebar) (sel : string -> list cell)
    (range : Z * Z) (cs : list string) (d : DataFrame) :
  answers sidebar sel range ->
  forallb (fun col => one_kind (column_cells d col)) cs = true ->
  categorical_filters sidebar cs d =
    Ok {| columns := columns d;
          rows := filter (passes_columns (columns d) sel cs) (rows d) |}.
Proof.
  intros Hans. revert d. induction cs as [|c cs IH]; simpl; intros d H.
  - unfold passes_columns. simpl. rewrite filter_true. now destruct d.
  - apply andb_true_iff in H. destruct H as [Hc Hcs].
    rewrite (categorical_filter_answers _ _ _ _ _ Hans Hc). simpl.
    rewrite IH.
    + simpl. rewrite filter_and. reflexivity.
    + rewrite forallb_forall in *. intros col Hin.
      eapply one_kind_incl; [|apply Hcs, Hin].
      apply column_cells_incl; [reflexivity|]. simpl.
      intros r Hr. apply filter_In in Hr. tauto.
Qed.

Lemma sidebar_filters_answers (sidebar : Sidebar) (sel : string -> list cell)
    (range : Z * Z) (df df' : DataFrame) (i : nat) :
  answers sidebar sel range ->
  well_typed df = true ->
  get_loc "Start year" (columns df) = Some i ->
  sidebar_filters sidebar df = Ok df' ->
  df' = {| columns := columns df;
           rows := filter (fun r => passes_columns (columns df) sel categorical_columns r
                                    && year_passes (fst range) (snd range) (iat i r))
                          (rows df) |}.
Proof.
  intros Hans Hty Hcol Hrun. unfold well_typed in Hty.
  apply andb_true_iff in Hty. destruct Hty as [Hcat Hnum].
  rewrite sidebar_filters_unfold, copy_eq in Hrun.
  rewrite (categorical_filters_answers _ _ _ _ _ Hans Hcat) in Hrun. simpl in Hrun.
  set (d := {| columns := columns df;
               rows := filter (passes_columns (columns df) sel categorical_columns)
                              (rows df) |}) in *.
  assert (Hnum' : no_text (column_cells d "Start year") = true).
  { eapply no_text_incl; [|exact Hnum].
    apply column_cells_incl; [reflexivity|]. simpl.
    intros r Hr. apply filter_In in Hr. tauto. }
  apply range_section_Ok in Hrun. destruct Hrun as [b [_ [_ Hrun]]].
  destruct Hans as [_ Hs]. rewrite Hs in Hrun.
  rewrite (year_filter_rows d _ _ i Hcol Hnum') in Hrun. injection Hrun as <-.
  simpl. now rewrite filter_and.
Qed.

Lemma well_typed_incl (d d' : DataFrame) :
  columns d' = columns d -> incl (rows d') (rows d) ->
  well_typed d = true -> well_typed d' = true.
Proof.
  intros Hc Hr H. unfold well_typed in *.
  apply andb_true_iff in H. destruct H as [Hcat Hnum]. apply andb_true_iff. split.
  - rewrite forallb_forall in *. intros col Hin.
    eapply one_kind_incl; [|apply Hcat, Hin]. now apply column_cells_incl.
  - eapply no_text_incl; [|exact Hnum]. now apply column_cells_incl.
Qed.

(** On the frame the section has returned, with the same answers, the
    categorical blocks change nothing and the range filter keeps every row:
    what remains is whether the slider can be drawn. *)
Lemma sidebar_filters_again (sidebar : Sidebar) (sel : string -> list cell)
    (range : Z * Z) (df df' : DataFrame) (i : nat) :
  answers sidebar sel range ->
  well_typed df = true ->
  get_loc "Start year" (columns df) = Some i ->
  sidebar_filters sidebar df = Ok df' ->
  sidebar_filters sidebar df' = range_section sidebar df'
  /\ year_filter df' (fst range) (snd range) = Ok df'
  /\ no_text (column_cells df' "Start year") = true.
Proof.
  intros Hans Hty Hcol Hrun.
  pose proof (sidebar_filters_answers _ _ _ _ _ _ Hans Hty Hcol Hrun) as Hdf'.
  assert (Hincl : incl (rows df') (rows df)).
  { rewrite Hdf'. simpl. intros r Hr. apply filter_In in Hr. tauto. }
  assert (Hcols : columns df' = columns df) by (rewrite Hdf'; reflexivity).
  assert (Hty' : well_typed df' = true) by (apply (well_typed_incl df); assumption).
  assert (Hpass : forall r, In r (rows df') ->
            passes_columns (columns df) sel categorical_columns r
            && year_passes (fst range) (snd range) (iat i r) = true).
  { intros r Hr. rewrite Hdf' in Hr. simpl in Hr. apply filter_In in Hr. tauto. }
  unfold well_typed in Hty'. apply andb_true_iff in Hty'. destruct Hty' as [Hcat' Hnum'].
  split; [|split; [|assumption]].
  - rewrite sidebar_filters_unfold, copy_eq.
    rewrite (categorical_filters_answers _ _ _ _ _ Hans Hcat'). simpl.
    rewrite Hcols. f_equal. rewrite filter_all.
    + rewrite <- Hcols. now destruct df'.
    + apply forallb_forall. intros r Hr. apply Hpass in Hr.
      apply andb_true_iff in Hr. tauto.
  - rewrite <- Hcols in Hcol.
    rewrite (year_filter_rows df' _ _ i Hcol Hnum'). f_equal.
    rewrite filter_all; [now destruct df'|].
    apply forallb_forall. intros r Hr. apply Hpass in Hr.
    apply andb_true_iff in Hr. tauto.
Qed.

(** X3.  When the user's answers are fixed (a selection per multiselect, a
    range for the slider) and the filter section returns a frame, that frame
    holds, in order, exactly the rows that pass every test at once: for each
    categorical column present whose selection is neither empty nor holds
    "All", the cell is one of the selected values; and the start year is
    present and within the range.  (The frame is typed and has the
    [Start year] column.) *)
Theorem filters_are_a_conjunction_of_tests
    (sidebar : Sidebar) (sel : string -> list cell) (range : Z * Z)
    (df df' : DataFrame) (i : nat)
    (Hans : answers sidebar sel range)
    (Hty : well_typed df = true)
    (Hcol : get_loc "Start year" (columns df) = Some i)
    (Hrun : sidebar_filters sidebar df = Ok df') :
  columns df' = columns df
  /\ rows df' =
       filter (fun r => passes_columns (columns df) sel categorical_columns r
                        && year_passes (fst range) (snd range) (iat i r))
              (rows df)
  /\ (forall r, In r (rows df') <->
        In r (rows df)
        /\ (forall col k, In col categorical_columns ->
              get_loc col (columns df) = Some k ->
              filters_on (sel col) = true ->
              existsb (cell_eqb (iat k r)) (sel col) = true)
        /\ year_passes (fst range) (snd range) (iat i r) = true).
Proof.
  rewrite (sidebar_filters_answers _ _ _ _ _ _ Hans Hty Hcol Hrun).
  cbn [columns rows].
  split; [reflexivity|]. split; [reflexivity|].
  intros r. rewrite filter_In. split.
  - intros [Hin Hboth]. apply andb_true_iff in Hboth. destruct Hboth as [Hcols Hyear].
    unfold passes_columns in Hcols. rewrite forallb_forall in Hcols.
    split; [assumption|]. split; [|assumption].
    intros col k Hc Hk Hon. specialize (Hcols col Hc).
    unfold passes_column in Hcols. now rewrite Hk, Hon in Hcols.
  - intros [Hin [Hcols Hyear]]. split; [assumption|].
    apply andb_true_iff. split; [|assumption].
    unfold passes_columns. apply forallb_forall.
    intros col Hc. unfold passes_column.
    destruct (get_loc col (columns df)) as [k|] eqn:Hk; [|reflexivity].
    destruct (filters_on (sel col)) eqn:Hon; [|reflexivity].
    now apply (Hcols col k).
Qed.

Lemma filters_are_a_conjunction_of_tests_witness :
  columns {| columns := columns plants;
             rows := [ [Str "coal"; Str "operating"; Num 2000; Num 500];
                       [Str "solar"; Str "operating"; Num 2001; Num 1000] ] |}
  = columns plants
  /\ rows {| columns := columns plants;
             rows := [ [Str "coal"; Str "operating"; Num 2000; Num 500];
                       [Str "solar"; Str "operating"; Num 2001; Num 1000] ] |} =
       filter (fun r =>
                 passes_columns (columns plants)
                   (fun l => if String.eqb l "Status" then [Str "operating"] else [Str ALL])
                   categorical_columns r
                 && year_passes (fst (2000, 2001)%Z) (snd (2000, 2001)%Z) (iat 2 r))
              (rows plants)
  /\ (forall r,
        In r (rows {| columns := columns plants;
                      rows := [ [Str "coal"; Str "operating"; Num 2000; Num 500];
                                [Str "solar"; Str "operating"; Num 2001; Num 1000] ] |}) <->
        In r (rows plants)
        /\ (forall col k, In col categorical_columns ->
              get_loc col (columns plants) = Some k ->
              filters_on (if String.eqb col "Status" then [Str "operating"] else [Str ALL])
              = true ->
              existsb (cell_eqb (iat k r))
                      (if String.eqb col "Status" then [Str "operating"] else [Str ALL])
              = true)
        /\ year_passes (fst (2000, 2001)%Z) (snd (2000, 2001)%Z) (iat 2 r) = true).
Proof.
  apply (filters_are_a_conjunction_of_tests
           (answering (fun l => if String.eqb l "Status" then [Str "operating"] else [Str ALL])
                      (2000, 2001)%Z)
           (fun l => if String.eqb l "Status" then [Str "operating"] else [Str ALL])
           (2000, 2001)%Z plants
           {| columns := columns plants;
              rows := [ [Str "coal"; Str "operating"; Num 2000; Num 500];
                        [Str "solar"; Str "operating"; Num 2001; Num 1000] ] |} 2).
  - split; reflexivity.
  - reflexivity.
  - reflexivity.
  - vm_compute. reflexivity.
Defined.

(** X4.  With fixed answers, filtering again changes nothing.  Run on the
    frame it has returned, the filter section returns that same frame when
    the slider can be drawn on it, that is when its start years, truncated,
    are not all the same one; and when they are, the slider has equal bounds
    and the section raises.  (The first frame is typed and has the
    [Start year] column.) *)
Theorem filtering_again_changes_nothing
    (sidebar : Sidebar) (sel : string -> list cell) (range : Z * Z)
    (df df' : DataFrame) (i : nat)
    (Hans : answers sidebar sel range)
    (Hty : well_typed df = true)
    (Hcol : get_loc "Start year" (columns df) = Some i)
    (Hrun : sidebar_filters sidebar df = Ok df') :
  (slider_drawn df' -> sidebar_filters sidebar df' = Ok df')
  /\ (~ slider_drawn df' -> sidebar_filters sidebar df' = Raise StreamlitAPIException).
Proof.
  destruct (sidebar_filters_again _ _ _ _ _ _ Hans Hty Hcol Hrun) as [-> [Hkeep Hnum]].
  destruct (year_bounds_total _ Hnum) as [b Hb]. split; intros Hd.
  - rewrite (range_section_drawn sidebar df' b Hb (drawn_bounds _ _ Hb Hd)).
    destruct Hans as [_ Hs]. now rewrite Hs.
  - apply (range_section_not_drawn sidebar df' b Hb). now apply (not_drawn_bounds df').
Qed.

Lemma filtering_again_changes_nothing_witness :
  (slider_drawn
     {| columns := columns plants;
        rows := [ [Str "coal"; Str "operating"; Num 2000; Num 500];
                  [Str "solar"; Str "operating"; Num 2001; Num 1000] ] |} ->
   sidebar_filters
     (answering (fun l => if String.eqb l "Status" then [Str "operating"] else [Str ALL])
                (2000, 2001)%Z)
     {| columns := columns plants;
        rows := [ [Str "coal"; Str "operating"; Num 2000; Num 500];
                  [Str "solar"; Str "operating"; Num 2001; Num 1000] ] |}
   = Ok {| columns := columns plants;
           rows := [ [Str "coal"; Str "operating"; Num 2000; Num 500];
                     [Str "solar"; Str "operating"; Num 2001; Num 1000] ] |})
  /\ (~ slider_drawn
          {| columns := columns plants;
             rows := [ [Str "coal"; Str "operating"; Num 2000; Num 500];
                       [Str "solar"; Str "operating"; Num 2001; Num 1000] ] |} ->
      sidebar_filters
        (answering (fun l => if String.eqb l "Status" then [Str "operating"] else [Str ALL])
                   (2000, 2001)%Z)
        {| columns := columns plants;
           rows := [ [Str "coal"; Str "operating"; Num 2000; Num 500];
                     [Str "solar"; Str "operating"; Num 2001; Num 1000] ] |}
      = Raise StreamlitAPIException).
Proof.
  apply (filtering_again_changes_nothing
           (answering (fun l => if String.eqb l "Status" then [Str "operating"] else [Str ALL])
                      (2000, 2001)%Z)
           (fun l => if String.eqb l "Status" then [Str "operating"] else [Str ALL])
           (2000, 2001)%Z plants
           {| columns := columns plants;
              rows := [ [Str "coal"; Str "operating"; Num 2000; Num 500];
                        [Str "solar"; Str "operating"; Num 2001; Num 1000] ] |} 2).
  - split; reflexivity.
  - reflexivity.
  - reflexivity.
  - vm_compute. reflexivity.
Defined.

(** ** What [load_data] changes *)

Lemma get_loc_inj (cols : list string) (a b : string) (i : nat) :
  get_loc a cols = Some i -> get_loc b cols = Some i -> a = b.
Proof.
  revert i. induction cols as [|c cols IH]; simpl; intros i Ha Hb; [discriminate|].
  destruct (String.eqb_spec c a) as [Ea|Ea], (String.eqb_spec c b) as [Eb|Eb].
  - congruence.
  - destruct (get_loc b cols); simpl in Hb; congruence.
  - destruct (get_loc a cols); simpl in Ha; congruence.
  - destruct (get_loc a cols) as [ja|]; simpl in Ha; [|discriminate].
    destruct (get_loc b cols) as [jb|]; simpl in Hb; [|discriminate].
    apply (IH ja); [reflexivity | f_equal; congruence].
Qed.

Lemma coerce_column_cells (L : Lib) (col c : string) (d : DataFrame) :
  column_cells (coerce_column L col d) c =
    if String.eqb c col then map (coerce L) (column_cells d c) else column_cells d c.
Proof.
  unfold coerce_column.
  destruct (get_loc col (columns d)) as [i|] eqn:Hi.
  - unfold column_cells, getitem. cbn [columns rows].
    destruct (get_loc c (columns d)) as [k|] eqn:Hk.
    + rewrite !map_map. destruct (String.eqb_spec c col) as [->|Hne].
      * assert (k = i) by congruence. subst k.
        apply map_ext. intros r. now rewrite iat_set_iat, Nat.eqb_refl.
      * apply map_ext. intros r. rewrite iat_set_iat.
        destruct (Nat.eqb_spec k i) as [->|Hki]; [|reflexivity].
        exfalso. apply Hne. exact (get_loc_inj _ _ _ _ Hk Hi).
    + now destruct (String.eqb c col).
  - destruct (String.eqb_spec c col) as [->|Hne]; [|reflexivity].
    unfold column_cells, getitem. now rewrite Hi.
Qed.

Lemma coerce_column_length (L : Lib) (col : string) (d : DataFrame) :
  List.length (rows (coerce_column L col d)) = List.length (rows d).
Proof.
  unfold coerce_column. destruct (get_loc col (columns d)); [|reflexivity].
  cbn [rows]. apply length_map.
Qed.

(** X5.  The body of [load_data], called on an existing file (the cache of
    [st.cache_data] holding nothing for it), reads the file once, creates
    one frame object and changes no other object of the store; the frame has
    the columns and the number of rows of the file's table, and after the
    coercion none of [Start year], [Retired year], [installed capacity MW]
    holds a text. *)
Theorem load_data_creates_one_coerced_frame
    (L : Lib) (os : OS) (path : string) (table : DataFrame) (st : state)
    (Hfile : file os path = Some table) :
  exists loaded,
    load_data L os path st =
      (Ok (List.length (heap st)),
       {| heap := heap st ++ [loaded]; log := log st ++ [read_csv path] |})
    /\ columns loaded = columns table
    /\ List.length (rows loaded) = List.length (rows table)
    /\ Forall (fun col => no_text (column_cells loaded col) = true) numeric_columns.
Proof.
  destruct (load_data_numeric L os path table st Hfile) as [Hrun [Hcols Hnum]].
  eexists. split; [exact Hrun|]. split; [exact Hcols|]. split; [|exact Hnum].
  now rewrite !coerce_column_length.
Qed.

Lemma load_data_creates_one_coerced_frame_witness :
  exists loaded,
    load_data digits_lib (with_table raw_plants) ("/srv/" ++ CSV_PATH)%string plants_loaded =
      (Ok (List.length (heap plants_loaded)),
       {| heap := heap plants_loaded ++ [loaded];
          log := log plants_loaded ++ [read_csv ("/srv/" ++ CSV_PATH)%string] |})
    /\ columns loaded = columns raw_plants
    /\ List.length (rows loaded) = List.length (rows raw_plants)
    /\ Forall (fun col => no_text (column_cells loaded col) = true) numeric_columns.
Proof.
  apply (load_data_creates_one_coerced_frame
           digits_lib (with_table raw_plants) ("/srv/" ++ CSV_PATH)%string raw_plants
           plants_loaded).
  reflexivity.
Defined.

(** On [raw_plants], with [plants] in the store: the word becomes a missing
    cell, the digits the number they write, and [plants] stays as it was. *)
Example load_data_on_raw_plants :
  load_data digits_lib (with_table raw_plants) ("/srv/" ++ CSV_PATH)%string plants_loaded =
    (Ok 1%nat,
     {| heap := [ plants;
                  {| columns := columns raw_plants;
                     rows := [ [Str "operating"; Num 2000; Num 500];
                               [Str "retired"; NaN; Num 250];
                               [Str "operating"; NaN; NaN] ] |} ];
        log := [read_csv ("/srv/" ++ CSV_PATH)%string] |}).
Proof. vm_compute. reflexivity. Qed.

(** X6.  In the frame returned by [load_data], a cell of one of the three
    numeric columns is the file's cell coerced (a number or a missing cell is
    kept, a text becomes the number it reads as, or missing), and every cell
    of any other column is the file's cell. *)
Theorem load_data_changes_numeric_columns_only
    (L : Lib) (os : OS) (path : string) (table : DataFrame) (st st' : state)
    (df : ref) (col : string)
    (Hfile : file os path = Some table)
    (Hrun : load_data L os path st = (Ok df, st')) :
  column_cells (value_of st' df) col =
    if existsb (String.eqb col) numeric_columns
    then map (coerce L) (column_cells table col)
    else column_cells table col.
Proof.
  destruct (load_data_numeric L os path table st Hfile) as [Hrun' _].
  rewrite Hrun' in Hrun. injection Hrun as <- <-.
  unfold value_of. cbn [heap]. rewrite nth_middle.
  rewrite !coerce_column_cells. unfold numeric_columns. cbn [existsb].
  destruct (String.eqb_spec col "installed capacity MW") as [->|H1];
    [reflexivity|].
  destruct (String.eqb_spec col "Retired year") as [->|H2]; [reflexivity|].
  destruct (String.eqb col "Start year"); reflexivity.
Qed.

Lemma load_data_changes_numeric_columns_only_witness :
  column_cells
    (value_of
       {| heap := [ plants;
                    {| columns := columns raw_plants;
                       rows := [ [Str "operating"; Num 2000; Num 500];
                                 [Str "retired"; NaN; Num 250];
                                 [Str "operating"; NaN; NaN] ] |} ];
          log := [read_csv ("/srv/" ++ CSV_PATH)%string] |} 1%nat)
    "Start year" =
    if existsb (String.eqb "Start year") numeric_columns
    then map (coerce digits_lib) (column_cells raw_plants "Start year")
    else column_cells raw_plants "Start year".
Proof.
  apply (load_data_changes_numeric_columns_only
           digits_lib (with_table raw_plants) ("/srv/" ++ CSV_PATH)%string raw_plants
           plants_loaded
           {| heap := [ plants;
                        {| columns := columns raw_plants;
                           rows := [ [Str "operating"; Num 2000; Num 500];
                                     [Str "retired"; NaN; Num 250];
                                     [Str "operating"; NaN; NaN] ] |} ];
              log := [read_csv ("/srv/" ++ CSV_PATH)%string] |}
           1%nat "Start year").
  - reflexivity.
  - vm_compute. reflexivity.
Defined.

(** ** Totals of the two aggregates *)

Lemma Qsum_perm (l l' : list Q) : Permutation l l' -> (Qsum l == Qsum l')%Q.
Proof.
  induction 1 as [|x l l' H IH|x y l|l1 l2 l3 H1 IH1 H2 IH2]; unfold Qsum in *; simpl.
  - reflexivity.
  - now rewrite IH.
  - ring.
  - now rewrite IH1.
Qed.

Lemma Qsum_div (l : list Q) (c : Q) :
  (Qsum (map (fun x => x / c) l) == Qsum l / c)%Q.
Proof.
  induction l as [|x l IH]; unfold Qsum in *; simpl.
  - unfold Qdiv. ring.
  - rewrite IH. unfold Qdiv. ring.
Qed.

Lemma add_to_group_sum (k : cell) (v : Q) (groups : list (cell * Q)) :
  (Qsum (map snd (add_to_group k v groups)) == Qsum (map snd groups) + v)%Q.
Proof.
  induction groups as [|[k' s] t IH]; simpl.
  - unfold Qsum. simpl. ring.
  - destruct (cell_eqb k' k); simpl.
    + unfold Qsum. simpl. ring.
    + unfold Qsum in *. simpl. rewrite IH. ring.
Qed.

Lemma fold_group_step_sum (kvs : list (cell * option Q)) (groups : list (cell * Q)) :
  (Qsum (map snd (fold_left group_step kvs groups))
   == Qsum (map snd groups)
      + Qsum (map value_or_zero (filter (fun kv => notna (fst kv)) kvs)))%Q.
Proof.
  revert groups. induction kvs as [|kv kvs IH]; simpl; intros groups.
  - set (a := Qsum (map snd groups)). unfold Qsum. simpl. ring.
  - rewrite IH. unfold group_step.
    set (rest := Qsum (map value_or_zero (filter (fun kv0 => notna (fst kv0)) kvs))).
    destruct (fst kv) eqn:E; simpl.
    + rewrite add_to_group_sum. set (a := Qsum (map snd groups)).
      unfold Qsum. simpl. fold (Qsum (map value_or_zero
        (filter (fun kv0 => notna (fst kv0)) kvs))). fold rest.
      unfold value_or_zero. ring.
    + rewrite add_to_group_sum. set (a := Qsum (map snd groups)).
      unfold Qsum. simpl. fold (Qsum (map value_or_zero
        (filter (fun kv0 => notna (fst kv0)) kvs))). fold rest.
      unfold value_or_zero. ring.
    + reflexivity.
Qed.

Lemma groupby_sum_unfold (df : DataFrame) (by_ col : string) (i j : nat) :
  get_loc by_ (columns df) = Some i ->
  get_loc col (columns df) = Some j ->
  no_text (column_cells df col) = true ->
  groupby_sum df by_ col =
    Ok (sort key_leb
          (fold_left group_step (map (fun r => (iat i r, num_of (iat j r))) (rows df)) [])).
Proof.
  intros Hi Hj Hnum. unfold groupby_sum.
  rewrite (column_cells_at _ _ _ Hj) in Hnum.
  rewrite (getitem_at _ _ _ Hi), (getitem_at _ _ _ Hj). simpl.
  rewrite (floats_total _ Hnum). simpl. now rewrite map_map, combine_map_rows.
Qed.

Lemma groupby_sum_total (df : DataFrame) (by_ col : string) (i j : nat)
    (g : list (cell * Q)) :
  get_loc by_ (columns df) = Some i ->
  get_loc col (columns df) = Some j ->
  no_text (column_cells df col) = true ->
  groupby_sum df by_ col = Ok g ->
  (Qsum (map snd g)
   == Qsum (map (capacity_at j) (filter (fun r => notna (iat i r)) (rows df))))%Q.
Proof.
  intros Hi Hj Hnum Hg. rewrite (groupby_sum_unfold _ _ _ _ _ Hi Hj Hnum) in Hg.
  injection Hg as <-.
  rewrite (Qsum_perm _ _ (Permutation_map snd (sort_perm key_leb _))).
  rewrite fold_group_step_sum. rewrite filter_map_swap, map_map.
  unfold Qsum at 1. simpl. rewrite Qplus_0_l. reflexivity.
Qed.

(** X7.  The table of [cap_by_status] comes in ascending order of status, and
    nothing is lost or counted twice: its capacities add up to the capacity
    of all the rows that have a status, in MW and, divided by 1000, in GW.
    (The frame has both columns, the capacity column numeric, with
    capacities exact for the script's arithmetic: [exact_capacities].) *)
Theorem cap_by_status_conserves_capacity
    (df : DataFrame) (i j : nat)
    (Hstatus : get_loc "Status" (columns df) = Some i)
    (Hcap : get_loc "installed capacity MW" (columns df) = Some j)
    (Hnum : no_text (column_cells df "installed capacity MW") = true)
    (Hexact : exact_capacities j (rows df) = true) :
  exists t,
    cap_by_status df = Ok t
    /\ Sorted (fun a b => cell_leb (Status a) (Status b) = true) t
    /\ (Qsum (map TotalCapacityMW t)
        == Qsum (map (capacity_at j) (filter (fun r => notna (iat i r)) (rows df))))%Q
    /\ (Qsum (map TotalCapacityGW t)
        == Qsum (map (capacity_at j) (filter (fun r => notna (iat i r)) (rows df))) / 1000)%Q.
Proof.
  unfold cap_by_status.
  destruct (groupby_sum df "Status" "installed capacity MW") as [g|e] eqn:Hg;
    [|rewrite (groupby_sum_unfold _ _ _ _ _ Hstatus Hcap Hnum) in Hg; discriminate].
  pose proof (groupby_sum_total _ _ _ _ _ _ Hstatus Hcap Hnum Hg) as Htot.
  simpl. eexists. split; [reflexivity|]. split; [|split].
  - apply Sorted_map.
    rewrite (groupby_sum_unfold _ _ _ _ _ Hstatus Hcap Hnum) in Hg. injection Hg as <-.
    apply (sort_sorted key_leb key_leb_total).
  - rewrite map_map. simpl. exact Htot.
  - rewrite map_map. simpl. rewrite <- Htot.
    rewrite <- (Qsum_div (map snd g) 1000), map_map. reflexivity.
Qed.

Lemma cap_by_status_conserves_capacity_witness :
  exists t,
    cap_by_status plants = Ok t
    /\ Sorted (fun a b => cell_leb (Status a) (Status b) = true) t
    /\ (Qsum (map TotalCapacityMW t)
        == Qsum (map (capacity_at 3) (filter (fun r => notna (iat 1 r)) (rows plants))))%Q
    /\ (Qsum (map TotalCapacityGW t)
        == Qsum (map (capacity_at 3) (filter (fun r => notna (iat 1 r)) (rows plants)))
           / 1000)%Q.
Proof.
  apply (cap_by_status_conserves_capacity plants 1 3); reflexivity.
Defined.

Lemma filter_implied {A : Type} (p q : A -> bool) (l : list A) :
  (forall x, q x = true -> p x = true) -> filter p (filter q l) = filter q l.
Proof.
  intros H. rewrite filter_and. apply filter_ext. intros x.
  destruct (q x) eqn:E; [|reflexivity]. now rewrite (H x E).
Qed.

Lemma last_cons {A : Type} (a d : A) (l : list A) : last (a :: l) d = last l a.
Proof.
  revert a d. induction l as [|b l IH]; intros a d; [reflexivity|].
  change (last (a :: b :: l) d) with (last (b :: l) d).
  now rewrite (IH b d), (IH b a).
Qed.

Lemma cumsum_from_last (l : list Q) (acc : Q) :
  (last (cumsum_from acc l) acc == acc + Qsum l)%Q.
Proof.
  revert acc. induction l as [|x l IH]; intros acc.
  - unfold Qsum. simpl. ring.
  - cbn [cumsum_from]. rewrite last_cons, IH. unfold Qsum. simpl. ring.
Qed.

Lemma cumsum_last (l : list Q) : (last (cumsum l) 0 == Qsum l)%Q.
Proof.
  destruct l as [|x l]; [reflexivity|].
  cbn [cumsum]. rewrite last_cons, cumsum_from_last. unfold Qsum. simpl. reflexivity.
Qed.

Lemma cumsum_from_ascending (l : list Q) (acc : Q) :
  Forall (fun x => (0 <= x)%Q) l -> Sorted Qle (acc :: cumsum_from acc l).
Proof.
  intros H. revert acc. induction H as [|x l Hx Hl IH]; intros acc; simpl.
  - repeat constructor.
  - constructor; [apply IH|]. constructor.
    apply Qle_trans with (acc + 0)%Q; [rewrite Qplus_0_r; apply Qle_refl|].
    apply Qplus_le_r. exact Hx.
Qed.

Lemma cumsum_ascending (l : list Q) :
  Forall (fun x => (0 <= x)%Q) l -> Sorted Qle (cumsum l).
Proof.
  intros H. destruct H as [|x l Hx Hl]; simpl; [constructor|].
  now apply cumsum_from_ascending.
Qed.

Lemma Qsum_nonneg (l : list Q) : Forall (fun x => (0 <= x)%Q) l -> (0 <= Qsum l)%Q.
Proof.
  induction 1 as [|x l Hx Hl IH]; unfold Qsum in *; simpl; [apply Qle_refl|].
  exact (Qplus_le_compat 0 x 0 _ Hx IH).
Qed.

Lemma df_year_unfold (df : DataFrame) (i j : nat) :
  get_loc "Start year" (columns df) = Some i ->
  get_loc "installed capacity MW" (columns df) = Some j ->
  no_text (column_cells df "installed capacity MW") = true ->
  exists g t,
    groupby_sum {| columns := columns df; rows := complete_rows i j (rows df) |}
                "Start year" "installed capacity MW" = Ok g
    /\ df_year df = Ok t
    /\ map NewCapMW t = map snd (sort key_leb g)
    /\ map NewCapGW t = map (fun x => (x / 1000)%Q) (map NewCapMW t)
    /\ map CumulativeCapGW t = cumsum (map NewCapGW t).
Proof.
  intros Hi Hj Hcap. unfold df_year.
  rewrite (dropna_subset_complete _ _ _ Hi Hj). simpl.
  set (d := {| columns := columns df; rows := complete_rows i j (rows df) |}).
  assert (Hcap' : no_text (column_cells d "installed capacity MW") = true).
  { eapply no_text_incl; [|exact Hcap].
    apply column_cells_incl; [reflexivity|]. intros r Hr. apply filter_In in Hr. tauto. }
  rewrite (groupby_sum_unfold d _ _ i j Hi Hj Hcap'). simpl.
  set (g := sort key_leb _).
  set (by_year := sort key_leb g).
  set (gw := map (fun kv : cell * Q => (snd kv / 1000)%Q) by_year).
  assert (Hlen : List.length by_year = List.length (cumsum gw)).
  { unfold gw. now rewrite cumsum_length, length_map. }
  exists g. eexists. split; [reflexivity|]. split; [reflexivity|].
  assert (Hmw : map NewCapMW
            (map (fun r : cell * Q * Q =>
                    {| Year := fst (fst r); NewCapMW := snd (fst r);
                       NewCapGW := (snd (fst r) / 1000)%Q; CumulativeCapGW := snd r |})
                 (combine by_year (cumsum gw))) = map snd by_year).
  { rewrite map_map. simpl.
    rewrite <- (map_fst_combine by_year (cumsum gw) Hlen) at 2. now rewrite map_map. }
  assert (Hgw : map NewCapGW
            (map (fun r : cell * Q * Q =>
                    {| Year := fst (fst r); NewCapMW := snd (fst r);
                       NewCapGW := (snd (fst r) / 1000)%Q; CumulativeCapGW := snd r |})
                 (combine by_year (cumsum gw))) = gw).
  { rewrite map_map. simpl. unfold gw at 2.
    rewrite <- (map_fst_combine by_year (cumsum gw) Hlen) at 2. now rewrite map_map. }
  split; [exact Hmw|]. split.
  - rewrite Hgw, Hmw, map_map. reflexivity.
  - rewrite Hgw, map_map. simpl. apply map_snd_combine. exact Hlen.
Qed.

(** X8.  In the table of [df_year], the last cumulative value is the capacity
    of all the rows that have both a start year and a capacity, in GW; and
    when no capacity is negative, no new-capacity value is negative and the
    cumulative column never decreases.  (The frame has both columns, the
    capacity column numeric, with capacities exact for the script's
    arithmetic: [exact_capacities].) *)
Theorem df_year_cumulative_reaches_total
    (df : DataFrame) (i j : nat)
    (Hyear : get_loc "Start year" (columns df) = Some i)
    (Hcap : get_loc "installed capacity MW" (columns df) = Some j)
    (Hcnum : no_text (column_cells df "installed capacity MW") = true)
    (Hexact : exact_capacities j (rows df) = true) :
  exists t,
    df_year df = Ok t
    /\ (last (map CumulativeCapGW t) 0
        == Qsum (map (capacity_at j) (complete_rows i j (rows df))) / 1000)%Q
    /\ (Forall (fun r => (0 <= capacity_at j r)%Q) (rows df) ->
        Sorted Qle (map CumulativeCapGW t)).
Proof.
  destruct (df_year_unfold df i j Hyear Hcap Hcnum) as [g [t [Hg [Ht [Hmw [Hgw Hcum]]]]]].
  set (d := {| columns := columns df; rows := complete_rows i j (rows df) |}) in Hg.
  assert (Hcap' : no_text (column_cells d "installed capacity MW") = true).
  { eapply no_text_incl; [|exact Hcnum].
    apply column_cells_incl; [reflexivity|]. intros r Hr. apply filter_In in Hr. tauto. }
  exists t. split; [exact Ht|]. split.
  - rewrite Hcum, cumsum_last, Hgw, Qsum_div, Hmw.
    rewrite (Qsum_perm _ _ (Permutation_map snd (sort_perm key_leb g))).
    rewrite (groupby_sum_total d _ _ i j g Hyear Hcap Hcap' Hg).
    unfold d, complete_rows. cbn [rows]. rewrite filter_implied; [reflexivity|].
    intros r Hr. apply andb_true_iff in Hr. tauto.
  - intros Hpos. rewrite Hcum. apply cumsum_ascending.
    rewrite Hgw. apply Forall_forall. intros x Hx.
    apply in_map_iff in Hx. destruct Hx as [mw [<- Hmwin]].
    rewrite Hmw in Hmwin. apply in_map_iff in Hmwin. destruct Hmwin as [e [<- He]].
    apply sort_In in He.
    destruct (groupby_sum_spec d "Start year" "installed capacity MW" i j Hyear Hcap Hcap')
      as [g' [Hg' [_ [_ [Hrows _]]]]].
    rewrite Hg in Hg'. injection Hg' as <-.
    destruct (Hrows e He) as [_ [_ Hsum]].
    apply Qle_shift_div_l; [reflexivity|]. rewrite Qmult_0_l, Hsum.
    unfold group_total. apply Qsum_nonneg. apply Forall_forall. intros y Hy.
    apply in_map_iff in Hy. destruct Hy as [r [<- Hr]].
    rewrite Forall_forall in Hpos. apply Hpos.
    apply filter_In in Hr. destruct Hr as [Hr _]. apply filter_In in Hr. tauto.
Qed.

Lemma df_year_cumulative_reaches_total_witness :
  exists t,
    df_year plants = Ok t
    /\ (last (map CumulativeCapGW t) 0
        == Qsum (map (capacity_at 3) (complete_rows 2 3 (rows plants))) / 1000)%Q
    /\ (Forall (fun r => (0 <= capacity_at 3 r)%Q) (rows plants) ->
        Sorted Qle (map CumulativeCapGW t)).
Proof.
  apply (df_year_cumulative_reaches_total plants 2 3); reflexivity.
Defined.

(** ** The size of the table shown *)

(** X9.  The table shown is the filtered frame itself, whole and in order,
    when it has at most 10 rows; beyond, it is made of exactly 10 rows taken
    at distinct positions of the filtered frame.  In both cases it has the
    columns of the filtered frame and [min 10 n] of its [n] rows, and every
    row shown is a row of the filtered frame. *)
Theorem shown_sample_size
    (L : Lib) (np_random : rng L) (df_filtered : DataFrame)
    (Hlib : choice_ok L) :
  ((List.length (rows df_filtered) <= 10)%nat ->
   shown_sample L np_random df_filtered = df_filtered)
  /\ ((10 < List.length (rows df_filtered))%nat ->
      exists positions,
        List.length positions = 10%nat
        /\ NoDup positions
        /\ Forall (fun i => (i < List.length (rows df_filtered))%nat) positions
        /\ rows (shown_sample L np_random df_filtered)
           = map (fun i => nth i (rows df_filtered) []) positions)
  /\ List.length (rows (shown_sample L np_random df_filtered))
     = Nat.min 10 (List.length (rows df_filtered))
  /\ columns (shown_sample L np_random df_filtered) = columns df_filtered
  /\ incl (rows (shown_sample L np_random df_filtered)) (rows df_filtered).
Proof.
  unfold shown_sample.
  destruct (Nat.ltb_spec 10 (List.length (rows df_filtered))) as [Hlt|Hle].
  - destruct (Hlib (RandomState L 42%Z) (List.length (rows df_filtered)) 10%nat)
      as [Hn [Hnd Hrange]]; [lia|].
    unfold sample. cbn [rows columns]. split; [intros; lia|]. split; [|split; [|split]].
    + intros _. eexists. split; [exact Hn|]. split; [exact Hnd|].
      split; [exact Hrange | reflexivity].
    + rewrite length_map, Hn. lia.
    + reflexivity.
    + intros r Hr. apply in_map_iff in Hr. destruct Hr as [k [<- Hk]].
      rewrite Forall_forall in Hrange. apply nth_In. now apply Hrange.
  - split; [reflexivity|]. split; [intros; lia|].
    split; [lia|]. split; [reflexivity | apply incl_refl].
Qed.

Lemma shown_sample_size_witness :
  ((List.length (rows fifteen_years) <= 10)%nat ->
   shown_sample toy_lib 1%nat fifteen_years = fifteen_years)
  /\ ((10 < List.length (rows fifteen_years))%nat ->
      exists positions,
        List.length positions = 10%nat
        /\ NoDup positions
        /\ Forall (fun i => (i < List.length (rows fifteen_years))%nat) positions
        /\ rows (shown_sample toy_lib 1%nat fifteen_years)
           = map (fun i => nth i (rows fifteen_years) []) positions)
  /\ List.length (rows (shown_sample toy_lib 1%nat fifteen_years))
     = Nat.min 10 (List.length (rows fifteen_years))
  /\ columns (shown_sample toy_lib 1%nat fifteen_years) = columns fifteen_years
  /\ incl (rows (shown_sample toy_lib 1%nat fifteen_years)) (rows fifteen_years).
Proof.
  apply (shown_sample_size toy_lib 1%nat fifteen_years). exact toy_lib_ok.
Defined.

(** ** The script from end to end *)

Lemma bind_Ok {A B : Type} (m : M A) (k : A -> M B) (st st' : state) (a : A) :
  m st = (Ok a, st') -> bind m k st = k a st'.
Proof. unfold bind. now intros ->. Qed.

Lemma bind_Raise {A B : Type} (m : M A) (k : A -> M B) (st st' : state) (e : exn) :
  m st = (Raise e, st') -> bind m k st = (Raise e, st').
Proof. unfold bind. now intros ->. Qed.

Lemma cap_by_status_total (d : DataFrame) :
  contains (columns d) "Status" = true ->
  contains (columns d) "installed capacity MW" = true ->
  no_text (column_cells d "installed capacity MW") = true ->
  exists t, cap_by_status d = Ok t.
Proof.
  intros Hs Hc Hnum. apply contains_get_loc in Hs, Hc.
  destruct Hs as [i Hi], Hc as [j Hj].
  destruct (cap_by_status_spec d i j Hi Hj Hnum) as [t [Ht _]]. eauto.
Qed.

Lemma df_year_total (d : DataFrame) :
  contains (columns d) "Start year" = true ->
  contains (columns d) "installed capacity MW" = true ->
  no_text (column_cells d "installed capacity MW") = true ->
  exists t, df_year d = Ok t.
Proof.
  intros Hs Hc Hnum. apply contains_get_loc in Hs, Hc.
  destruct Hs as [i Hi], Hc as [j Hj].
  destruct (df_year_unfold d i j Hi Hj Hnum) as [g [t [_ [Ht _]]]]. eauto.
Qed.

(** The part of the script after the filter section, on a frame whose
    capacity column is numeric: it ends normally and logs the page. *)
Lemma page_run (L : Lib) (np_random : rng L) (df_filtered : ref) (st : state) :
  no_text (column_cells (value_of st df_filtered) "installed capacity MW") = true ->
  (d <- deref df_filtered ;;
   emit (st_subheader "Filtered Data Summary") ;;;
   emit (st_write_rows (List.length (rows d))) ;;;
   emit (st_dataframe (shown_sample L np_random d)) ;;;
   (if contains (columns d) "Status"
       && contains (columns d) "installed capacity MW"
       && (0 <? List.length (rows d))%nat
    then
      emit (st_subheader "Total Installed Capacity by Status (GW)") ;;;
      t <- lift (cap_by_status d) ;;
      emit (chart_status t)
    else ret tt) ;;;
   (if contains (columns d) "Start year"
       && contains (columns d) "installed capacity MW"
       && (0 <? List.length (rows d))%nat
    then
      emit (st_subheader "Newly Added & Cumulative Capacity by Start Year (GW)") ;;;
      t <- lift (df_year d) ;;
      emit (st_write "**Newly Added Capacity by Year (GW)**") ;;;
      emit (chart_new t) ;;;
      emit (st_write "**Cumulative Installed Capacity by Year (GW)**") ;;;
      emit (chart_cum t)
    else ret tt))%script%string st
  = (Ok tt, {| heap := heap st;
               log := log st ++ page L np_random (value_of st df_filtered) |}).
Proof.
  intros Hnum. unfold bind at 1, deref at 1. fold (value_of st df_filtered).
  set (d := value_of st df_filtered) in *.
  unfold page, status_section, year_section.
  unfold bind, emit, lift, ret. cbn [heap log].
  destruct (contains (columns d) "installed capacity MW") eqn:Hc;
    [|rewrite !andb_false_r; simpl; rewrite <- !app_assoc; reflexivity].
  rewrite !andb_true_r.
  destruct (0 <? List.length (rows d))%nat eqn:Hlen;
    [|rewrite !andb_false_r; simpl; rewrite <- !app_assoc; reflexivity].
  rewrite !andb_true_r.
  destruct (contains (columns d) "Status") eqn:Hs;
    destruct (contains (columns d) "Start year") eqn:Hy.
  - destruct (cap_by_status_total d Hs Hc Hnum) as [t1 ->].
    destruct (df_year_total d Hy Hc Hnum) as [t2 ->].
    cbn [heap log]. rewrite <- !app_assoc. reflexivity.
  - destruct (cap_by_status_total d Hs Hc Hnum) as [t1 ->].
    cbn [heap log]. rewrite <- !app_assoc. reflexivity.
  - destruct (df_year_total d Hy Hc Hnum) as [t2 ->].
    cbn [heap log]. rewrite <- !app_assoc. reflexivity.
  - cbn [heap log]. rewrite <- !app_assoc. reflexivity.
Qed.

(** The script on an existing file: it loads and coerces the table, then
    either the filter section raises and the script stops there, or the
    script ends normally having shown the page of the filtered frame. *)
Lemma main_run (L : Lib) (os : OS) (sidebar : Sidebar) (np_random : rng L)
    (st : state) (table : DataFrame) :
  file os (abspath os CSV_PATH) = Some table ->
  exists new,
    main L os sidebar np_random st =
      match sidebar_filters sidebar (coerced L table) with
      | Ok d =>
          (Ok tt,
           {| heap := heap st ++ coerced L table :: new;
              log := log st ++ opening (abspath os CSV_PATH) (coerced L table)
                            ++ page L np_random d |})
      | Raise e =>
          (Raise e,
           {| heap := heap st ++ coerced L table :: new;
              log := log st ++ opening (abspath os CSV_PATH) (coerced L table) |})
      end.
Proof.
  intros Hfile.
  destruct (load_data_numeric L os _ table st Hfile) as [Hload [Hcols Hnum]].
  fold (coerced L table) in Hload, Hcols, Hnum.
  set (loaded := coerced L table) in *.
  set (p := abspath os CSV_PATH) in *.
  unfold main. fold p. unfold path_exists. rewrite Hfile. cbn [negb].
  unfold bind at 1, ret at 1.
  rewrite (bind_Ok _ _ _ _ _ Hload).
  unfold bind at 1, emit at 1. cbn [heap log].
  unfold bind at 1, deref at 1. cbn [heap]. rewrite nth_middle.
  unfold bind at 1, emit at 1. cbn [heap log].
  set (st2 := {| heap := heap st ++ [loaded];
                 log := ((log st ++ [read_csv p])
                         ++ [st_success "Data loaded successfully!"])
                        ++ [st_write_shape (List.length (rows loaded)) (columns loaded)] |}).
  assert (Hlog2 : log st2 = log st ++ opening p loaded).
  { unfold st2, opening. cbn [log]. now rewrite <- !app_assoc. }
  assert (Hdf : (List.length (heap st) < List.length (heap st2))%nat).
  { unfold st2. cbn [heap]. rewrite length_app. simpl. lia. }
  assert (Hval : value_of st2 (List.length (heap st)) = loaded).
  { unfold value_of, st2. cbn [heap]. apply nth_middle. }
  pose proof (sidebar_filters_s_computes sidebar _ st2 Hdf) as Hrun.
  rewrite Hval in Hrun. unfold computes in Hrun.
  destruct (sidebar_filters_s sidebar (List.length (heap st)) st2) as [[r|e] st3] eqn:E.
  - destruct Hrun as [[[new Hheap] Hlog] [Hr Hres]].
    rewrite Hres. rewrite (bind_Ok _ _ _ _ _ E).
    exists new. etransitivity; [apply page_run|].
    + apply sidebar_filters_shape in Hres. destruct Hres as [Hc Hsub].
      eapply no_text_incl; [apply column_cells_incl; [exact Hc | apply Subseq_incl, Hsub]|].
      unfold numeric_columns in Hnum. inversion Hnum as [|? ? _ Hn2]; subst.
      inversion Hn2 as [|? ? _ Hn3]; subst. inversion Hn3; subst. assumption.
    + f_equal. destruct st3 as [h3 l3]. cbn [heap log] in *.
      rewrite Hheap, Hlog, Hlog2. unfold st2. cbn [heap].
      rewrite <- !app_assoc. reflexivity.
  - destruct Hrun as [[[new Hheap] Hlog] Hres].
    rewrite Hres. rewrite (bind_Raise _ _ _ _ _ E).
    exists new. f_equal. destruct st3 as [h3 l3]. cbn [heap log] in *.
    rewrite Hheap, Hlog, Hlog2. unfold st2. cbn [heap].
    rewrite <- !app_assoc. reflexivity.
Qed.

(** X10.  On an existing file, once the filter section has returned a frame,
    the script always ends normally: it has read the file once, shown the
    "loaded" messages with the shape of the coerced table, then the row
    count of the filtered frame, its sample, the status chart and the year
    charts of that frame (each only when its columns are there and the frame
    is not empty); the loaded frame is still in the store as it was
    coerced. *)
Theorem script_shows_page_of_filtered_frame
    (L : Lib) (os : OS) (sidebar : Sidebar) (np_random : rng L)
    (st : state) (table d : DataFrame)
    (Hfile : file os (abspath os CSV_PATH) = Some table)
    (Hfiltered : sidebar_filters sidebar (coerced L table) = Ok d) :
  exists new,
    main L os sidebar np_random st =
      (Ok tt,
       {| heap := heap st ++ coerced L table :: new;
          log := log st ++ opening (abspath os CSV_PATH) (coerced L table)
                        ++ page L np_random d |}).
Proof.
  destruct (main_run L os sidebar np_random st table Hfile) as [new Hrun].
  rewrite Hfiltered in Hrun. eauto.
Qed.

Lemma script_shows_page_of_filtered_frame_witness :
  exists new,
    main toy_lib (with_table plants) untouched 0%nat initial_state =
      (Ok tt,
       {| heap := heap initial_state ++ coerced toy_lib plants :: new;
          log := log initial_state
                 ++ opening (abspath (with_table plants) CSV_PATH) (coerced toy_lib plants)
                 ++ page toy_lib 0%nat
                      {| columns := columns plants;
                         rows := filter (fun r => notna (iat 2 r)) (rows plants) |} |}).
Proof.
  apply (script_shows_page_of_filtered_frame
           toy_lib (with_table plants) untouched 0%nat initial_state plants
           {| columns := columns plants;
              rows := filter (fun r => notna (iat 2 r)) (rows plants) |}).
  - reflexivity.
  - vm_compute. reflexivity.
Defined.

(** X11.  When the filters leave no row, the script still ends normally, and
    after the "loaded" messages it shows the summary with 0 rows and the
    empty table, and no chart at all. *)
Theorem empty_selection_shows_no_chart
    (L : Lib) (os : OS) (sidebar : Sidebar) (np_random : rng L)
    (st : state) (table d : DataFrame)
    (Hfile : file os (abspath os CSV_PATH) = Some table)
    (Hfiltered : sidebar_filters sidebar (coerced L table) = Ok d)
    (Hempty : rows d = []) :
  exists new,
    main L os sidebar np_random st =
      (Ok tt,
       {| heap := heap st ++ coerced L table :: new;
          log := log st ++ opening (abspath os CSV_PATH) (coerced L table)
                        ++ [st_subheader "Filtered Data Summary";
                            st_write_rows 0;
                            st_dataframe d] |}).
Proof.
  destruct (main_run L os sidebar np_random st table Hfile) as [new Hrun].
  rewrite Hfiltered in Hrun. exists new. rewrite Hrun.
  unfold page, status_section, year_section, shown_sample. rewrite Hempty.
  cbn [List.length Nat.ltb Nat.leb]. rewrite !andb_false_r. reflexivity.
Qed.

Lemma empty_selection_shows_no_chart_witness :
  exists new,
    main toy_lib (with_table plants) (all_with_range (1800, 1801)%Z) 0%nat initial_state =
      (Ok tt,
       {| heap := heap initial_state ++ coerced toy_lib plants :: new;
          log := log initial_state
                 ++ opening (abspath (with_table plants) CSV_PATH) (coerced toy_lib plants)
                 ++ [st_subheader "Filtered Data Summary";
                     st_write_rows 0;
                     st_dataframe {| columns := columns plants; rows := [] |}] |}).
Proof.
  apply (empty_selection_shows_no_chart
           toy_lib (with_table plants) (all_with_range (1800, 1801)%Z) 0%nat
           initial_state plants {| columns := columns plants; rows := [] |}).
  - reflexivity.
  - vm_compute. reflexivity.
  - reflexivity.
Defined.

Lemma coerced_categorical_cells (L : Lib) (table : DataFrame) (col : string) :
  In col categorical_columns ->
  column_cells (coerced L table) col = column_cells table col.
Proof.
  intros Hin. unfold coerced. rewrite !coerce_column_cells.
  unfold categorical_columns in Hin. simpl in Hin.
  repeat (destruct Hin as [<-|Hin]; [reflexivity|]). contradiction.
Qed.

(** X12.  On an existing file whose table has no [Start year] column (its
    categorical columns each of one kind), the script shows the "loaded"
    messages and then stops with [KeyError] on [Start year], whatever the
    user does in the sidebar: no summary, table or chart is shown. *)
Theorem file_without_start_year_stops_script
    (L : Lib) (os : OS) (sidebar : Sidebar) (np_random : rng L)
    (st : state) (table : DataFrame)
    (Hfile : file os (abspath os CSV_PATH) = Some table)
    (Hcol : contains (columns table) "Start year" = false)
    (Hkind : forallb (fun col => one_kind (column_cells table col)) categorical_columns
             = true) :
  exists new,
    main L os sidebar np_random st =
      (Raise (KeyError "Start year"),
       {| heap := heap st ++ coerced L table :: new;
          log := log st ++ opening (abspath os CSV_PATH) (coerced L table) |}).
Proof.
  destruct (main_run L os sidebar np_random st table Hfile) as [new Hrun].
  exists new. rewrite Hrun.
  rewrite sidebar_filters_without_start_year; [reflexivity| |].
  - unfold coerced. rewrite !coerce_column_columns.
    now apply contains_false_get_loc.
  - rewrite forallb_forall in *. intros col Hin.
    rewrite (coerced_categorical_cells L table col Hin). now apply Hkind.
Qed.

Lemma file_without_start_year_stops_script_witness :
  exists new,
    main toy_lib (with_table status_scenario) untouched 0%nat initial_state =
      (Raise (KeyError "Start year"),
       {| heap := heap initial_state ++ coerced toy_lib status_scenario :: new;
          log := log initial_state
                 ++ opening (abspath (with_table status_scenario) CSV_PATH)
                      (coerced toy_lib status_scenario) |}).
Proof.
  apply (file_without_start_year_stops_script
           toy_lib (with_table status_scenario) untouched 0%nat initial_state
           status_scenario); reflexivity.
Defined.

(** ** Widening the year range *)

Lemma year_passes_wider (low high low' high' : Z) (c : cell) :
  (low' <= low)%Z -> (high <= high')%Z ->
  year_passes low high c = true -> year_passes low' high' c = true.
Proof.
  intros Hl Hh. unfold year_passes. destruct c as [s|q|]; try discriminate.
  rewrite !andb_true_iff, !Qle_bool_iff. intros [H1 H2]. split.
  - eapply Qle_trans; [|exact H1]. now rewrite <- Zle_Qle.
  - eapply Qle_trans; [exact H2|]. now rewrite <- Zle_Qle.
Qed.

(** X13.  With the same selections, widening the year range never removes a
    row: when the filter section returns a frame for the range [low, high]
    and one for a range [low', high'] that contains it, the rows of the
    first are a subsequence of the rows of the second.  (The frame is typed
    and has the [Start year] column.) *)
Theorem wider_year_range_keeps_more_rows
    (sidebar sidebar' : Sidebar) (sel : string -> list cell)
    (low high low' high' : Z) (df d d' : DataFrame) (i : nat)
    (Hans : answers sidebar sel (low, high))
    (Hans' : answers sidebar' sel (low', high'))
    (Hlow : (low' <= low)%Z)
    (Hhigh : (high <= high')%Z)
    (Hty : well_typed df = true)
    (Hcol : get_loc "Start year" (columns df) = Some i)
    (Hrun : sidebar_filters sidebar df = Ok d)
    (Hrun' : sidebar_filters sidebar' df = Ok d') :
  Subseq (rows d) (rows d').
Proof.
  rewrite (sidebar_filters_answers _ _ _ _ _ _ Hans Hty Hcol Hrun).
  rewrite (sidebar_filters_answers _ _ _ _ _ _ Hans' Hty Hcol Hrun').
  cbn [rows fst snd].
  rewrite <- (filter_of_filter
                (fun r => passes_columns (columns df) sel categorical_columns r
                          && year_passes low high (iat i r))
                (fun r => passes_columns (columns df) sel categorical_columns r
                          && year_passes low' high' (iat i r))).
  - apply Subseq_filter.
  - intros r Hr. apply andb_true_iff in Hr. destruct Hr as [Hc Hy].
    apply andb_true_iff. split; [assumption|].
    now apply (year_passes_wider low high).
Qed.

Lemma wider_year_range_keeps_more_rows_witness :
  Subseq
    (rows {| columns := columns plants;
             rows := [ [Str "coal"; Str "operating"; Num 2000; Num 500];
                       [Str "coal"; Str "retired"; Num 2000; Num 500] ] |})
    (rows {| columns := columns plants;
             rows := [ [Str "coal"; Str "operating"; Num 2000; Num 500];
                       [Str "coal"; Str "retired"; Num 2000; Num 500];
                       [Str "solar"; Str "operating"; Num 2001; Num 1000];
                       [Str "wind"; NaN; Num 2001; NaN] ] |}).
Proof.
  apply (wider_year_range_keeps_more_rows
           (answering (fun _ => [Str ALL]) (2000, 2000)%Z)
           (answering (fun _ => [Str ALL]) (1990, 2001)%Z)
           (fun _ => [Str ALL]) 2000 2000 1990 2001 plants
           {| columns := columns plants;
              rows := [ [Str "coal"; Str "operating"; Num 2000; Num 500];
                        [Str "coal"; Str "retired"; Num 2000; Num 500] ] |}
           {| columns := columns plants;
              rows := [ [Str "coal"; Str "operating"; Num 2000; Num 500];
                        [Str "coal"; Str "retired"; Num 2000; Num 500];
                        [Str "solar"; Str "operating"; Num 2001; Num 1000];
                        [Str "wind"; NaN; Num 2001; NaN] ] |} 2).
  - split; reflexivity.
  - split; reflexivity.
  - lia.
  - lia.
  - reflexivity.
  - reflexivity.
  - vm_compute. reflexivity.
  - vm_compute. reflexivity.
Defined.

(** ** A single start year *)

(** X14.  When the start years of the rows left by the categorical blocks
    all truncate to one and the same year, the slider is offered equal
    bounds and cannot be drawn: the filter section raises, whatever the
    user's answers, before the range filter is reached.  (The frame is
    typed.) *)
Theorem single_start_year_stops_at_slider
    (sidebar : Sidebar) (df d : DataFrame) (mn mx : Q)
    (Hty : well_typed df = true)
    (Hcat : categorical_filters sidebar categorical_columns df = Ok d)
    (Hobs : observed_range d = Some (mn, mx))
    (Hsame : int mn = int mx) :
  year_bounds d = Ok (int mn, int mn)
  /\ sidebar_filters sidebar df = Raise StreamlitAPIException.
Proof.
  unfold well_typed in Hty. apply andb_true_iff in Hty. destruct Hty as [_ Hnum].
  assert (Hnum' : no_text (column_cells d "Start year") = true).
  { apply categorical_filters_shape in Hcat. destruct Hcat as [Hcols Hsub].
    eapply no_text_incl; [|exact Hnum].
    apply column_cells_incl; [assumption | now apply Subseq_incl]. }
  destruct (year_bounds_total _ Hnum') as [b Hb].
  pose proof (year_bounds_Ok _ _ Hb) as Eb. rewrite Hobs, <- Hsame in Eb. subst b.
  split; [exact Hb|].
  rewrite sidebar_filters_unfold, copy_eq, Hcat. simpl.
  apply (range_section_not_drawn sidebar d _ Hb). simpl. lia.
Qed.

Lemma single_start_year_stops_at_slider_witness :
  year_bounds {| columns := columns plants;
                 rows := [ [Str "hydro"; Str "mothballed"; Num 2003; NaN] ] |}
  = Ok (int 2003, int 2003)
  /\ sidebar_filters
       (answering (fun l => if String.eqb l "Status" then [Str "mothballed"] else [Str ALL])
                  (1990, 2010)%Z)
       plants
     = Raise StreamlitAPIException.
Proof.
  apply (single_start_year_stops_at_slider
           (answering (fun l => if String.eqb l "Status" then [Str "mothballed"]
                                else [Str ALL])
                      (1990, 2010)%Z)
           plants
           {| columns := columns plants;
              rows := [ [Str "hydro"; Str "mothballed"; Num 2003; NaN] ] |}
           2003 2003).
  - reflexivity.
  - vm_compute. reflexivity.
  - reflexivity.
  - reflexivity.
Defined.
